(** * Clinical-trials search engine: ranking, relevance feedback, session history

    A shallow embedding of [src/evaluation/ranking.py] (class [Ranker]),
    of the parts of [src/evaluation/embed.py] and [src/pipeline.py] that
    decide which documents a similarity matrix is computed over, and of the
    session history kept by [src/gui.py].

    Modelling conventions.
    - Python [int] is [Z]; list slices and indices follow Python (negative
      values count from the end, slices clamp, indices raise).
    - Scores are Python floats in the source. They are modelled as exact
      rationals [Q]: rounding is abstracted away, comparison is numeric
      ([Qle_bool], [Qeq_bool]).
    - The dictionaries of a ranked list are shared, mutable objects. They
      live in a store ([gmap loc RankedDoc]) and a ranked list is a list of
      references into it.
    - [try: ... except Exception as e: self.error(...)] re-raises as
      [RuntimeError] (every logger is built with [raise_errors = True]);
      a raised exception is the [Raised] outcome. *)

From stdpp Require Import base numbers list strings gmap sorting.
From Stdlib Require Import QArith.

Open Scope Z_scope.

(** ** Outcomes: a call returns a value or raises *)

Inductive outcome (A : Type) : Type :=
| Returned (a : A)
| Raised (msg : string).
Arguments Returned {A} a.
Arguments Raised {A} msg.

(** ** Python list primitives *)

Section PyList.
Context {A : Type}.

(** [l[:k]] *)
Definition slice_to (l : list A) (k : Z) : list A :=
  if 0 <=? k then take (Z.to_nat k) l
  else take (length l - Z.to_nat (- k))%nat l.

(** [l[k:]] *)
Definition slice_from (l : list A) (k : Z) : list A :=
  if 0 <=? k then drop (Z.to_nat k) l
  else drop (length l - Z.to_nat (- k))%nat l.

(** [l[i]]: a negative index counts from the end, anything out of range
    raises [IndexError]. *)
Definition py_index (l : list A) (i : Z) : outcome A :=
  let n := Z.of_nat (length l) in
  let j := if 0 <=? i then i else n + i in
  if (0 <=? j) && (j <? n) then
    match l !! Z.to_nat j with
    | Some x => Returned x
    | None => Raised "IndexError"
    end
  else Raised "IndexError".

(** [sorted(l, key = key, reverse = True)]: descending by key and stable
    (elements with equal keys keep their relative order). *)
Fixpoint insert_reverse (key : A -> Q) (x : A) (l : list A) : list A :=
  match l with
  | [] => [x]
  | y :: l' =>
      if Qle_bool (key y) (key x) then x :: y :: l'
      else y :: insert_reverse key x l'
  end.

Fixpoint sorted_reverse (key : A -> Q) (l : list A) : list A :=
  match l with
  | [] => []
  | x :: l' => insert_reverse key x (sorted_reverse key l')
  end.
End PyList.

(** [range(a, b)] *)
Definition range (a b : Z) : list Z :=
  (fun k => a + Z.of_nat k) <$> seq 0 (Z.to_nat (b - a)).

(** [l.index(v)] on a list of floats: first position holding a value
    numerically equal to [v]; [ValueError] when there is none. *)
Fixpoint list_index (v : Q) (l : list Q) : outcome Z :=
  match l with
  | [] => Raised "ValueError"
  | x :: l' =>
      if Qeq_bool x v then Returned 0
      else match list_index v l' with
           | Returned p => Returned (p + 1)
           | Raised m => Raised m
           end
  end.

(** ** Data model *)

Inductive Source : Type := original | translated | expanded.

(** A candidate dictionary [{'docno', 'score', 'from_query'}]. *)
Record Candidate : Type := mkCandidate {
  cand_docno : string;
  cand_score : Q;
  cand_from_query : Source
}.

(** A ranked dictionary [{'rank', 'docno', 'score', 'from_query'}]. *)
Record RankedDoc : Type := mkRanked {
  doc_rank : Z;
  doc_docno : string;
  doc_score : Q;
  doc_from_query : Source
}.

Definition candidate_of (d : RankedDoc) : Candidate :=
  mkCandidate (doc_docno d) (doc_score d) (doc_from_query d).

(** [{'docno': ..., 'feedback': '+' | '-'}] *)
Record Feedback : Type := mkFeedback {
  fb_docno : string;
  fb_feedback : string
}.

(** ** Stateful computations that may raise

    [M S A]: a computation over a mutable state [S]. A raised exception
    keeps the state reached so far: mutations are not rolled back. *)

Definition M (S A : Type) : Type := S -> outcome A * S.

#[global] Instance M_ret {S} : MRet (M S) :=
  fun A a s => (Returned a, s).

#[global] Instance M_bind {S} : MBind (M S) :=
  fun A B k m s =>
    match m s with
    | (Returned a, s') => k a s'
    | (Raised msg, s') => (Raised msg, s')
    end.

Definition lift {S A} (o : outcome A) : M S A := fun s => (o, s).

(** Reading and updating the whole state. *)
Definition get {S} : M S S := fun s => (Returned s, s).
Definition modify {S} (f : S -> S) : M S unit := fun s => (Returned (), f s).

(** [try: m except Exception as e: self.error(...)]: the logger raises
    [RuntimeError] in place of the exception it reports. *)
Definition try_error {S A} (m : M S A) : M S A :=
  fun s =>
    match m s with
    | (Returned a, s') => (Returned a, s')
    | (Raised _, s') => (Raised "RuntimeError", s')
    end.

(** Run a computation on a component of the state. *)
Definition zoom {S T A} (get : T -> S) (set : S -> T -> T) (m : M S A) : M T A :=
  fun t => let '(o, s') := m (get t) in (o, set s' t).

(** [for x in l: body(x)] *)
Fixpoint for_each {S A} (l : list A) (body : A -> M S unit) : M S unit :=
  match l with
  | [] => mret ()
  | x :: l' => body x ;; for_each l' body
  end.

(** [[f(x) for x in l]] where [f] reads or writes the state. *)
Fixpoint for_list {S A B} (l : list A) (f : A -> M S B) : M S (list B) :=
  match l with
  | [] => mret []
  | x :: l' => y ← f x; ys ← for_list l' f; mret (y :: ys)
  end.

(** ** The store of ranked dictionaries *)

Definition loc : Type := nat.

Abbreviation heap := (gmap loc RankedDoc).

(** A reference held by a live Python list is never dangling; the [None]
    branch below is unreachable for stores that contain their lists. *)
Definition read (l : loc) : M heap RankedDoc :=
  fun h =>
    match h !! l with
    | Some d => (Returned d, h)
    | None => (Raised "dangling reference", h)
    end.

(** [doc['score'] = s] *)
Definition set_score (l : loc) (s : Q) : M heap unit :=
  fun h =>
    match h !! l with
    | Some d =>
        (Returned (),
         <[l := mkRanked (doc_rank d) (doc_docno d) s (doc_from_query d)]> h)
    | None => (Raised "dangling reference", h)
    end.

(** [doc['rank'] = r] *)
Definition set_rank (l : loc) (r : Z) : M heap unit :=
  fun h =>
    match h !! l with
    | Some d =>
        (Returned (),
         <[l := mkRanked r (doc_docno d) (doc_score d) (doc_from_query d)]> h)
    | None => (Raised "dangling reference", h)
    end.

(** A new dictionary object. *)
Definition alloc (d : RankedDoc) : M heap loc :=
  fun h => let l := fresh (dom h) in (Returned l, <[l := d]> h).

(** ** Ranker: normalisation, deduplication, fusion, reranking *)

Module Ranker.

(** The three attributes [rank] fills in and the helpers read. *)
Record state : Type := mkState {
  original_docs : list Candidate;
  translated_docs : list Candidate;
  expanded_docs : list Candidate
}.

Definition max_score : Q := 1%Q.
Definition min_score : Q := 0%Q.

(** One pass of the loop body of [_normalize] over one list. *)
Definition normalize_list (doc_list : list Candidate) : list Candidate :=
  match doc_list with
  | [] => doc_list
  | _ =>
      if Qeq_bool max_score min_score then doc_list
      else
        (fun doc =>
           mkCandidate (cand_docno doc)
             ((cand_score doc - min_score) / (max_score - min_score))%Q
             (cand_from_query doc)) <$> doc_list
  end.

Definition _normalize (self : state) : state :=
  mkState (normalize_list (original_docs self))
          (normalize_list (translated_docs self))
          (normalize_list (expanded_docs self)).

Definition _remove_doubles (self : state) : state :=
  let original_docnos : gset string :=
    list_to_set (cand_docno <$> original_docs self) in
  mkState (original_docs self)
    (filter (fun doc => cand_docno doc ∉ original_docnos) (translated_docs self))
    (filter (fun doc => cand_docno doc ∉ original_docnos) (expanded_docs self)).

(** The concatenation [final_ranked_list] built by [_get_ranked_list]. *)
Definition final_ranked_list (self : state) (topn : Z) : list Candidate :=
  let top_original_docs :=
    slice_to (sorted_reverse cand_score (original_docs self)) topn in
  let top_translated_docs :=
    slice_to (sorted_reverse cand_score (translated_docs self)) topn in
  let top_expanded_docs :=
    slice_to (sorted_reverse cand_score (expanded_docs self)) topn in
  let remaining_original_docs := slice_from (original_docs self) topn in
  let remaining_translated_docs := slice_from (original_docs self) topn in
  let remaining_expanded_docs := slice_from (expanded_docs self) topn in
  let mixed_remaining_docs :=
    remaining_original_docs ++ remaining_translated_docs
      ++ remaining_expanded_docs in
  let sorted_mixed_remaining_docs :=
    sorted_reverse cand_score mixed_remaining_docs in
  top_original_docs ++ top_translated_docs ++ top_expanded_docs
    ++ sorted_mixed_remaining_docs.

(** Nothing in the [try] block can raise on well-typed data, and there
    is no check of [topn] or [nmax]: the call always returns. *)
Definition _get_ranked_list (self : state) (topn nmax : Z)
  : outcome (list RankedDoc) :=
  Returned
    (imap (fun rank doc =>
             mkRanked (Z.of_nat rank + 1) (cand_docno doc) (cand_score doc)
               (cand_from_query doc))
       (slice_to (final_ranked_list self topn) nmax)).

Definition rank (original_docs translated_docs expanded_docs : list (string * Q))
    (topn nmax : Z) : outcome (list RankedDoc) :=
  let self :=
    mkState
      ((fun doc => mkCandidate doc.1 doc.2 original) <$> original_docs)
      ((fun doc => mkCandidate doc.1 doc.2 translated) <$> translated_docs)
      ((fun doc => mkCandidate doc.1 doc.2 expanded) <$> expanded_docs) in
  let self := _normalize self in
  let self := _remove_doubles self in
  _get_ranked_list self topn nmax.

(** [next((doc['rank'] for doc in ranked_list if doc['docno'] == docno), None)] *)
Fixpoint next_rank (ranked_list : list loc) (docno : string) : M heap (option Z) :=
  match ranked_list with
  | [] => mret None
  | l :: rest =>
      doc ← read l;
      if decide (doc_docno doc = docno) then mret (Some (doc_rank doc))
      else next_rank rest docno
  end.

(** [similarity_matrix[r, c].item()] *)
Definition tensor_item (similarity_matrix : list (list Q)) (r c : Z) : outcome Q :=
  match py_index similarity_matrix r with
  | Returned row => py_index row c
  | Raised m => Raised m
  end.

(** [ordered_similarity[-similarity_position]] for the similarity value
    at column [doc_to_update] of the row [similarity_list]. *)
Definition inverse_sim (similarity_list : list Q) (doc_to_update : Z) : outcome Q :=
  match py_index similarity_list doc_to_update with
  | Returned similarity_value =>
      let ordered_similarity := sorted_reverse id similarity_list in
      match list_index similarity_value ordered_similarity with
      | Returned similarity_position =>
          py_index ordered_similarity (- similarity_position)
      | Raised m => Raised m
      end
  | Raised m => Raised m
  end.

(** The score computed by one iteration of the update loop for a
    dictionary whose current score is [score]; [None] is [continue]. *)
Definition new_score (feedback : Feedback) (similarity_matrix : list (list Q))
    (selected_doc_index doc_to_update : Z) (score : Q) : outcome (option Q) :=
  match tensor_item similarity_matrix selected_doc_index doc_to_update with
  | Returned sim_value =>
      if decide (fb_feedback feedback = "+") then
        Returned (Some (score * sim_value)%Q)
      else if decide (fb_feedback feedback = "-") then
        match py_index similarity_matrix selected_doc_index with
        | Returned similarity_list =>
            match inverse_sim similarity_list doc_to_update with
            | Returned inverse_sim_value =>
                Returned (Some (score * inverse_sim_value)%Q)
            | Raised m => Raised m
            end
        | Raised m => Raised m
        end
      else Returned None
  | Raised m => Raised m
  end.

(** One iteration of the update loop. The score is read before the
    similarity is looked up; reading has no effect and cannot fail on a
    live reference, so the order is not observable. *)
Definition update_doc (ranked_list : list loc) (feedback : Feedback)
    (similarity_matrix : list (list Q)) (selected_doc_index doc_to_update : Z)
  : M heap unit :=
  current_doc ← lift (py_index ranked_list doc_to_update);
  doc ← read current_doc;
  s ← lift (new_score feedback similarity_matrix selected_doc_index
              doc_to_update (doc_score doc));
  match s with
  | Some new_score => set_score current_doc new_score
  | None => mret ()
  end.

(** [sorted(part, key = lambda x: x['score'], reverse = True)] on a list
    of references: the keys are read from the store. *)
Definition sorted_by_score (part : list loc) : M heap (list loc) :=
  keyed ← for_list part (fun l => doc ← read l; mret (l, doc_score doc));
  mret (sorted_reverse snd keyed).*1.

(** [enumerate(l, start)] *)
Definition enumerate {A} (l : list A) (start : Z) : list (Z * A) :=
  imap (fun i x => (start + Z.of_nat i, x)) l.

(** Lines 255 to 292 of [rerank]: the work done once the selected
    document has been found. *)
Definition rerank_selected (ranked_list : list loc) (feedback : Feedback)
    (similarity_matrix : list (list Q)) (selected_doc_index : Z)
  : M heap (list loc) :=
  for_each
    (range (selected_doc_index + 1) (Z.of_nat (length ranked_list) - 1))
    (update_doc ranked_list feedback similarity_matrix selected_doc_index);;
  reranked_part ←
    sorted_by_score (slice_from ranked_list (selected_doc_index + 1));
  let ranked_list :=
    slice_to ranked_list (selected_doc_index + 1) ++ reranked_part in
  for_each
    (enumerate (slice_from ranked_list (selected_doc_index + 1))
       (selected_doc_index + 2))
    (fun '(rank, doc) => set_rank doc rank);;
  mret ranked_list.

Definition rerank (ranked_list : list loc) (feedback : Feedback)
    (similarity_matrix : list (list Q)) : M heap (list loc) :=
  try_error (
    selected_doc_rank ← next_rank ranked_list (fb_docno feedback);
    match selected_doc_rank with
    | None => mret ranked_list
    | Some selected_doc_rank =>
        let selected_doc_index := selected_doc_rank - 1 in
        rerank_selected ranked_list feedback similarity_matrix
          selected_doc_index
    end).

End Ranker.

(** ** Collaborators

    Retrieval, translation, expansion and the embedding model are outside
    the modelled code. Each is a function of its arguments that returns or
    raises. *)

(** A corpus document: [{'docno', 'text', ...}]. *)
Record Document : Type := mkDocument {
  d_docno : string;
  d_text : string
}.

Record Collaborators : Type := mkCollaborators {
  (** [str.strip] *)
  strip : string -> string;
  (** [Pipeline.documents], loaded once from the dataset file *)
  documents : list Document;
  (** [Transformer.process_query(query)] *)
  process_query : string -> outcome string;
  (** [Indexer.retrieve(query, baseline = 'TF_IDF', expansion)]: the rows
      [(docno, score)] of the frame it returns *)
  retrieve : string -> option string -> outcome (list (string * Q));
  (** [results.sort_values(by = 'score', ascending = False)]: the library
      fixes no order among rows of equal score *)
  sort_values : list (string * Q) -> list (string * Q);
  (** [Translator.translate(query)] *)
  translate : string -> outcome string;
  (** [LLM.expand_query(query)]: expanded query and medical condition *)
  expand_query : string -> outcome (string * string);
  (** [_get_similarity_matrix(_get_embeddings(texts))]: row and column [i]
      belong to the [i]-th text *)
  similarity_of_texts : list string -> outcome (list (list Q))
}.

(** [utils.get_topn(results, n)]: [head(n)] keeps the first [n] rows and,
    for a negative [n], all rows but the last [-n]. *)
Definition get_topn (env : Collaborators) (results : list (string * Q)) (n : Z)
  : list (string * Q) :=
  let n := Z.min n (Z.of_nat (length results)) in
  slice_to (sort_values env results) n.

(** ** ClinicalBERT: which documents the matrix is computed over *)

Module ClinicalBERT.

(** The documents kept by the comprehension of [__call__]:
    [[d for d in documents if d['docno'] in ids]], in corpus order. *)
Definition selected (documents : list Document) (ids : list string) : list Document :=
  filter (fun document => d_docno document ∈ ids) documents.

(** [__call__(documents, ids)] *)
Definition call (env : Collaborators) (documents : list Document) (ids : list string)
  : outcome (list (list Q)) :=
  let documents_text := d_text <$> selected documents ids in
  match documents_text with
  | [] => Raised "RuntimeError"
  | _ => similarity_of_texts env documents_text
  end.

End ClinicalBERT.

(** ** Pipeline *)

Module Pipeline.

(** The attributes the modelled methods read, and the store of ranked
    dictionaries. [topn] is [None] for the value the constructor leaves
    ([self.topn = int], the type), on which arithmetic and the type check
    of [get_topn] raise. Attributes that are written and never read
    ([original_results], [expanded_query], ...) are left out. *)
Record state : Type := mkState {
  store : heap;
  topn : option Z;
  original_query : string;
  translated_query : string;
  original_top : list (string * Q);
  translated_top : list (string * Q);
  expanded_top : list (string * Q);
  similarity_matrix : list (list Q);
  ranked_list : list loc;
  reranked_list : list loc
}.

Definition set_store (h : heap) (p : state) : state :=
  mkState h (topn p) (original_query p) (translated_query p) (original_top p)
    (translated_top p) (expanded_top p) (similarity_matrix p) (ranked_list p)
    (reranked_list p).

Definition set_topn (n : Z) (p : state) : state :=
  mkState (store p) (Some n) (original_query p) (translated_query p) (original_top p)
    (translated_top p) (expanded_top p) (similarity_matrix p) (ranked_list p)
    (reranked_list p).

Definition set_original_query (q : string) (p : state) : state :=
  mkState (store p) (topn p) q (translated_query p) (original_top p)
    (translated_top p) (expanded_top p) (similarity_matrix p) (ranked_list p)
    (reranked_list p).

Definition set_translated_query (q : string) (p : state) : state :=
  mkState (store p) (topn p) (original_query p) q (original_top p)
    (translated_top p) (expanded_top p) (similarity_matrix p) (ranked_list p)
    (reranked_list p).

Definition set_original_top (top : list (string * Q)) (p : state) : state :=
  mkState (store p) (topn p) (original_query p) (translated_query p) top
    (translated_top p) (expanded_top p) (similarity_matrix p) (ranked_list p)
    (reranked_list p).

Definition set_translated_top (top : list (string * Q)) (p : state) : state :=
  mkState (store p) (topn p) (original_query p) (translated_query p) (original_top p)
    top (expanded_top p) (similarity_matrix p) (ranked_list p)
    (reranked_list p).

Definition set_expanded_top (top : list (string * Q)) (p : state) : state :=
  mkState (store p) (topn p) (original_query p) (translated_query p) (original_top p)
    (translated_top p) top (similarity_matrix p) (ranked_list p)
    (reranked_list p).

Definition set_similarity_matrix (m : list (list Q)) (p : state) : state :=
  mkState (store p) (topn p) (original_query p) (translated_query p) (original_top p)
    (translated_top p) (expanded_top p) m (ranked_list p)
    (reranked_list p).

Definition set_ranked_list (l : list loc) (p : state) : state :=
  mkState (store p) (topn p) (original_query p) (translated_query p) (original_top p)
    (translated_top p) (expanded_top p) (similarity_matrix p) l
    (reranked_list p).

Definition set_reranked_list (l : list loc) (p : state) : state :=
  mkState (store p) (topn p) (original_query p) (translated_query p) (original_top p)
    (translated_top p) (expanded_top p) (similarity_matrix p) (ranked_list p)
    l.

(** Run a store computation on the pipeline's store. *)
Definition on_store {A} (m : M heap A) : M state A := zoom store set_store m.

(** [self.topn] where an [int] is required. *)
Definition topn_int (error : string) : M state Z :=
  p ← get;
  match topn p with
  | Some n => mret n
  | None => lift (Raised error)
  end.

Definition retrieve_original (env : Collaborators) (query : string) (n : Z) : M state unit :=
  modify (set_topn n);;
  q ← lift (process_query env query);
  modify (set_original_query q);;
  original_results ← lift (retrieve env q None);
  modify (set_original_top (get_topn env original_results n)).

Definition retrieve_translated (env : Collaborators) : M state unit :=
  p ← get;
  t ← lift (translate env (original_query p));
  modify (set_translated_query t);;
  q ← lift (process_query env t);
  modify (set_translated_query q);;
  translated_results ← lift (retrieve env q (Some "Bo1"));
  n ← topn_int "TypeCheckError";
  modify (set_translated_top (get_topn env translated_results n)).

(** Returns the medical condition. *)
Definition retrieve_expanded (env : Collaborators) : M state string :=
  p ← get;
  r ← lift (expand_query env (translated_query p));
  q ← lift (process_query env r.1);
  expanded_results ← lift (retrieve env q None);
  n ← topn_int "TypeCheckError";
  modify (set_expanded_top (get_topn env expanded_results n));;
  mret r.2.

(** [_evaluate(ids)] *)
Definition _evaluate (env : Collaborators) (ids : list string) : M state unit :=
  p ← get;
  let ids :=
    match ids with
    | [] =>
        let combined_top_ids_set : gset string :=
          list_to_set
            ((original_top p).*1 ++ (translated_top p).*1 ++ (expanded_top p).*1) in
        elements combined_top_ids_set
    | _ => ids
    end in
  m ← lift (ClinicalBERT.call env (documents env) ids);
  modify (set_similarity_matrix m).

(** [rank()]: the ranked dictionaries are new objects. *)
Definition rank : M state (list loc) :=
  p ← get;
  n ← topn_int "TypeError";
  let topn := match expanded_top p with [] => n * 2 | _ => n * 3 end in
  docs ← lift (Ranker.rank (original_top p) (translated_top p) (expanded_top p)
                 topn (topn * 3));
  ranked ← on_store (for_list docs alloc);
  modify (set_ranked_list ranked);;
  mret ranked.

(** [rerank(ranked_list, feedback)]: the set [ids] is handed over as a
    list in an order of its own; only membership in it is used. *)
Definition rerank (env : Collaborators) (ranked_list : list loc) (feedback : Feedback)
  : M state (list loc) :=
  docs ← on_store (for_list ranked_list read);
  let ids : gset string := list_to_set (doc_docno <$> docs) in
  _evaluate env (elements ids);;
  p ← get;
  reranked ← on_store (Ranker.rerank ranked_list feedback (similarity_matrix p));
  modify (set_reranked_list reranked);;
  mret reranked.

End Pipeline.

(** ** GUI: the session history *)

(** [{'query', 'results', 'feedback'}]; the empty feedback dictionary of a
    search state is [None]. *)
Record SearchState : Type := mkSearchState {
  query : string;
  results : list loc;
  feedback : option Feedback
}.

Module GUI.

Record state : Type := mkState {
  pipeline : Pipeline.state;
  search_history : list SearchState;
  expansion : bool
}.

Definition set_pipeline (p : Pipeline.state) (g : state) : state :=
  mkState p (search_history g) (expansion g).

Definition set_search_history (hist : list SearchState) (g : state) : state :=
  mkState (pipeline g) hist (expansion g).

Definition on_pipeline {A} (m : M Pipeline.state A) : M state A :=
  zoom pipeline set_pipeline m.

(** [self.search_history.append(st)] *)
Definition append (st : SearchState) : M state unit :=
  modify (fun g => set_search_history (search_history g ++ [st]) g).

(** The body of the [try] block of [_rank]. *)
Definition rank_pipeline (env : Collaborators) (expansion : bool) (query : string)
  : M Pipeline.state (list loc) :=
  Pipeline.retrieve_original env query 15;;
  Pipeline.retrieve_translated env;;
  (if expansion then Pipeline.retrieve_expanded env ;; mret () else mret ());;
  Pipeline.rank.

Definition _rank (env : Collaborators) (query : string) : M state unit :=
  g ← get;
  ranked_list ← try_error (on_pipeline (rank_pipeline env (expansion g) query));
  append (mkSearchState query ranked_list None).

Definition _rerank (env : Collaborators) (feedback : Feedback) : M state unit :=
  g ← get;
  last_state ← lift (py_index (search_history g) (-1));
  try_error (
    reranked_list ← on_pipeline (Pipeline.rerank env (results last_state) feedback);
    append (mkSearchState (query last_state) reranked_list (Some feedback))).

(** [docno_to_document]: a later document replaces an earlier one with
    the same docno. *)
Definition docno_to_document (env : Collaborators) : gmap string Document :=
  foldl (fun m document => <[d_docno document := document]> m) ∅ (documents env).

Definition _search (env : Collaborators) (latest_results : list loc)
  : M state (list Document) :=
  docs ← on_pipeline (Pipeline.on_store (for_list latest_results read));
  mret (omap (fun result => docno_to_document env !! doc_docno result) docs).

(** For a blank query the source returns a dictionary where the checked
    return type is [list]: the type check raises. *)
Definition search (env : Collaborators) (query : string) (reset : bool)
  : M state (list Document) :=
  let query := strip env query in
  if decide (query = "") then lift (Raised "TypeCheckError")
  else
    (if reset then
       modify (set_search_history []);;
       _rank env query
     else mret ());;
    g ← get;
    let latest_results :=
      match last (search_history g) with
      | Some st => results st
      | None => []
      end in
    _search env latest_results.

(** [val['feedback'] and val['feedback']['docno'] == docno] *)
Definition targets (docno : string) (val : SearchState) : bool :=
  match feedback val with
  | Some fb => bool_decide (fb_docno fb = docno)
  | None => false
  end.

Definition _feedback (env : Collaborators) (record_docno : string)
    (feedback_value : option Z) : M state unit :=
  g ← get;
  let truncate_index := fst <$> list_find (targets record_docno) (search_history g) in
  match truncate_index with
  | Some truncate_index =>
      modify (set_search_history
                (slice_to (search_history g) (Z.of_nat truncate_index)))
  | None => mret ()
  end;;
  if decide (feedback_value = Some 1 \/ feedback_value = Some 2) then
    let feedback_type := if decide (feedback_value = Some 1) then "-" else "+" in
    _rerank env (mkFeedback record_docno feedback_type)
  else mret ().

(** The value [display] gives the feedback toggle of a record: the
    loop keeps the feedback of the last state of the history whose
    feedback is on the record's docno; ['-'] shows as 1, ['+'] as 2, and
    anything else (the empty string included) as no value. *)
Definition toggle_value (search_history : list SearchState) (record_docno : string)
  : option Z :=
  let shown :=
    foldl (fun shown val =>
             if targets record_docno val
             then fb_feedback <$> feedback val
             else shown)
      None search_history in
  match shown with
  | Some f =>
      if decide (f = "-") then Some 1
      else if decide (f = "+") then Some 2
      else None
  | None => None
  end.

End GUI.

(** ** Vocabulary of the statements *)

(** Descending order: every element is at least every later one. *)
Definition descending {A} (key : A -> Q) : list A -> Prop :=
  StronglySorted (fun a b => (key b <= key a)%Q).

(** What [sorted(l, key = key, reverse = True)] is required to be: a
    rearrangement of [l], descending, in which the elements of any one
    key value keep their order. *)
Definition stable_descending {A} (key : A -> Q) (l s : list A) : Prop :=
  s ≡ₚ l /\ descending key s /\
  forall v, filter (fun a => Qeq_bool (key a) v) s
            = filter (fun a => Qeq_bool (key a) v) l.

(** [returns m a]: some run of [m] returns [a]. *)
Definition returns {S A} (m : M S A) (a : A) : Prop :=
  exists s s', m s = (Returned a, s').

(** [preserves P m]: every run of [m], returning or raising, keeps the
    property [P] of the state it started from. *)
Definition preserves {S A} (P : S -> S -> Prop) (m : M S A) : Prop :=
  forall s, P s (m s).2.

(** The dictionaries outside [L] are the same in both stores. *)
Definition same_outside (L : loc -> Prop) (h h' : heap) : Prop :=
  forall l, ~ L l -> h' !! l = h !! l.

(** Both stores hold the same documents at the same references: docno
    and source tag may not differ, score and rank may. *)
Definition same_identity (h h' : heap) : Prop :=
  forall l : loc,
    (fun d => (doc_docno d, doc_from_query d)) <$> h' !! l
    = (fun d => (doc_docno d, doc_from_query d)) <$> h !! l.

(** The ranked-entry invariant of the data model: the entry at position
    [i] exists in the store and carries rank [i + 1]. *)
Definition dense_ranks (h : heap) (rl : list loc) : Prop :=
  forall (i : nat) l, rl !! i = Some l ->
    exists d, h !! l = Some d /\ doc_rank d = Z.of_nat i + 1.

(** [selected] is the first position whose entry has the given docno. *)
Definition found_at (h : heap) (rl : list loc) (docno : string) (selected : nat) : Prop :=
  exists l d,
    rl !! selected = Some l /\ h !! l = Some d /\ doc_docno d = docno /\
    forall (j : nat) l' d',
      (j < selected)%nat -> rl !! j = Some l' -> h !! l' = Some d' ->
      doc_docno d' <> docno.

(** An [n] by [n] matrix. *)
Definition matrix_fits (sim : list (list Q)) (n : nat) : Prop :=
  length sim = n /\ Forall (fun row => length row = n) sim.

(** The references the update loop and the rank loop may write: those
    held at positions after [selected]. *)
Definition suffix_loc (rl : list loc) (selected : nat) (l : loc) : Prop :=
  exists k : nat, (selected < k)%nat /\ rl !! k = Some l.

(** The position [ordered[-p]] reads: [-0] is [0], and [-p] counts from
    the end otherwise. *)
Definition neg_index (n p : nat) : nat :=
  if decide (p = 0%nat) then 0%nat else (n - p)%nat.

(** The dictionary [d] after one iteration that computed [r]. *)
Definition rescored (d : RankedDoc) (r : option Q) : RankedDoc :=
  match r with
  | Some q => mkRanked (doc_rank d) (doc_docno d) q (doc_from_query d)
  | None => d
  end.

(** The mirror value as the specification words it: with [ordered] the
    row sorted descending and [p] the first position of [s] in it, the
    value at position [len(ordered) - 1 - p]. *)
Definition claimed_mirror (row : list Q) (s : Q) : option Q :=
  let ordered := sorted_reverse id row in
  match list_index s ordered with
  | Returned p => ordered !! (length ordered - 1 - Z.to_nat p)%nat
  | Raised _ => None
  end.

(** ** Scenario data (spec section 8) *)

Module Scenario.
Open Scope Q_scope.

Definition A : RankedDoc := mkRanked 1 "A" 1.0 original.
Definition B : RankedDoc := mkRanked 2 "B" 0.6 original.
Definition C : RankedDoc := mkRanked 3 "C" 0.4 original.

(** The three dictionaries at references 0, 1, 2. *)
Definition store : heap := <[0%nat := A]> (<[1%nat := B]> (<[2%nat := C]> ∅)).
Definition ranked : list loc := [0; 1; 2]%nat.

(** A symmetric matrix with unit diagonal whose row 0 is the one of the
    scenarios. *)
Definition sim : list (list Q) :=
  [ [1.0; 0.5; 0.9];
    [0.5; 1.0; 0.7];
    [0.9; 0.7; 1.0] ].

Definition positive : Feedback := mkFeedback "A" "+".
Definition negative : Feedback := mkFeedback "A" "-".

(** The entries of a list of references, read through a store. *)
Definition view (h : heap) (l : list loc) : list (option RankedDoc) :=
  (fun r => h !! r) <$> l.
End Scenario.

(** ** A corpus whose order differs from the ranked order *)

Module PairingExample.

Definition corpus : list Document :=
  [mkDocument "D1" "one"; mkDocument "D2" "two"; mkDocument "D3" "three"].

(** A symmetric similarity of texts with unit diagonal. *)
Definition sim_text (a b : string) : Q :=
  if decide (a = b) then 1.0%Q
  else if decide (a = "one" /\ b = "two" \/ a = "two" /\ b = "one") then 0.9%Q
  else if decide (a = "one" /\ b = "three" \/ a = "three" /\ b = "one") then 0.1%Q
  else 0.5%Q.

Definition env : Collaborators :=
  mkCollaborators
    (fun s => s)
    corpus
    (fun q => Returned q)
    (fun q expansion =>
       match expansion with
       | None => Returned [("D3", 1.0%Q); ("D1", 0.6%Q); ("D2", 0.4%Q)]
       | Some _ => Returned []
       end)
    (fun rows => rows)
    (fun q => Returned q)
    (fun q => Returned (q, ""))
    (fun texts => Returned ((fun a => sim_text a <$> texts) <$> texts)).

(** The ranked list [D3, D1, D2], at references 0, 1, 2. *)
Definition dicts : heap :=
  <[0%nat := mkRanked 1 "D3" 1.0 original]>
    (<[1%nat := mkRanked 2 "D1" 0.6 original]>
       (<[2%nat := mkRanked 3 "D2" 0.4 original]> ∅)).

Definition ranked : list loc := [0; 1; 2]%nat.

Definition pipeline0 : Pipeline.state :=
  Pipeline.mkState dicts (Some 15) "q" "q"
    [("D3", 1.0%Q); ("D1", 0.6%Q); ("D2", 0.4%Q)] [] [] [] ranked [].

Definition liked : Feedback := mkFeedback "D3" "+".

(** A session: a search, then positive feedback on [D3]. *)
Definition session : GUI.state :=
  GUI.mkState pipeline0
    [mkSearchState "q" ranked None; mkSearchState "q" ranked (Some liked)]
    false.

End PairingExample.

(** ** A list handed to [rerank] a second time

    The list [a, b, c, d] is reranked on positive feedback for [a]; the
    same list object (kept by the first search state of a session, to
    which [_feedback] cuts the history back) is then reranked again, on
    feedback for [c]. *)

Module ReplayExample.


Definition ranked : list loc := [0; 1; 2; 3]%nat.

Definition sim : list (list Q) :=
  [ [1.0; 0.1; 0.9; 0.5];
    [0.1; 1.0; 0.5; 0.3];
    [0.9; 0.5; 1.0; 0.7];
    [0.5; 0.3; 0.7; 1.0] ]%Q.


End ReplayExample.

(** ** Facts about the list primitives *)

Section PyListFacts.
Context {A : Type}.
Implicit Types (l : list A) (key : A -> Q).

Lemma slice_to_nonneg l k : 0 <= k -> slice_to l k = take (Z.to_nat k) l.
Proof. intros Hk. unfold slice_to. by rewrite (proj2 (Z.leb_le 0 k) Hk). Qed.

Lemma slice_from_nonneg l k : 0 <= k -> slice_from l k = drop (Z.to_nat k) l.
Proof. intros Hk. unfold slice_from. by rewrite (proj2 (Z.leb_le 0 k) Hk). Qed.

Lemma slice_to_from l k : slice_to l k ++ slice_from l k = l.
Proof. unfold slice_to, slice_from. destruct (0 <=? k); apply take_drop. Qed.

Lemma py_index_nat l (i : nat) x :
  l !! i = Some x -> py_index l (Z.of_nat i) = Returned x.
Proof.
  intros Hx. pose proof (lookup_lt_Some _ _ _ Hx) as Hlt.
  unfold py_index.
  rewrite (proj2 (Z.leb_le 0 (Z.of_nat i))) by lia.
  rewrite (proj2 (Z.leb_le 0 (Z.of_nat i))) by lia.
  rewrite (proj2 (Z.ltb_lt (Z.of_nat i) (Z.of_nat (length l)))) by lia.
  simpl. by rewrite Nat2Z.id, Hx.
Qed.

Lemma insert_reverse_perm key x l : insert_reverse key x l ≡ₚ x :: l.
Proof.
  induction l as [|y l IH]; simpl; [done|].
  destruct (Qle_bool (key y) (key x)); [done|].
  rewrite IH. apply Permutation_swap.
Qed.

Lemma sorted_reverse_perm key l : sorted_reverse key l ≡ₚ l.
Proof.
  induction l as [|x l IH]; simpl; [done|].
  by rewrite insert_reverse_perm, IH.
Qed.

Lemma sorted_reverse_length key l : length (sorted_reverse key l) = length l.
Proof. apply Permutation_length, sorted_reverse_perm. Qed.

Lemma insert_reverse_descending key x l :
  descending key l -> descending key (insert_reverse key x l).
Proof.
  unfold descending. induction 1 as [|y l Hl IH Hy]; simpl.
  - repeat constructor.
  - destruct (Qle_bool (key y) (key x)) eqn:Hle.
    + apply Qle_bool_iff in Hle.
      constructor; [by constructor|].
      constructor; [done|].
      eapply Forall_impl; [exact Hy|].
      intros z Hz. simpl in Hz. eapply Qle_trans; [exact Hz|exact Hle].
    + constructor; [done|].
      rewrite insert_reverse_perm. constructor; [|done].
      destruct (Qlt_le_dec (key x) (key y)) as [Hlt|Hge].
      * by apply Qlt_le_weak.
      * apply Qle_bool_iff in Hge. congruence.
Qed.

Lemma sorted_reverse_descending key l : descending key (sorted_reverse key l).
Proof.
  induction l as [|x l IH]; simpl; [constructor|].
  by apply insert_reverse_descending.
Qed.

(** Stability: the elements of any one key value keep their order. *)
Lemma insert_reverse_filter key x l v :
  descending key l ->
  filter (fun a => Qeq_bool (key a) v) (insert_reverse key x l)
  = filter (fun a => Qeq_bool (key a) v) (x :: l).
Proof.
  unfold descending. induction 1 as [|y l Hl IH Hy]; simpl; [done|].
  destruct (Qle_bool (key y) (key x)) eqn:Hle; [done|].
  rewrite !filter_cons in *.
  destruct (decide (Qeq_bool (key x) v)) as [Hx|Hx];
    destruct (decide (Qeq_bool (key y) v)) as [Hy'|Hy']; try congruence.
  exfalso.
  apply Is_true_true, Qeq_bool_iff in Hx.
  apply Is_true_true, Qeq_bool_iff in Hy'.
  assert (Qle_bool (key y) (key x) = true); [|congruence].
  apply Qle_bool_iff. rewrite Hx, Hy'. apply Qle_refl.
Qed.

Lemma sorted_reverse_stable key l v :
  filter (fun a => Qeq_bool (key a) v) (sorted_reverse key l)
  = filter (fun a => Qeq_bool (key a) v) l.
Proof.
  induction l as [|x l IH]; simpl; [done|].
  rewrite insert_reverse_filter by apply sorted_reverse_descending.
  by rewrite !filter_cons, IH.
Qed.

Lemma sorted_reverse_spec key l : stable_descending key l (sorted_reverse key l).
Proof.
  split; [apply sorted_reverse_perm|].
  split; [apply sorted_reverse_descending|].
  apply sorted_reverse_stable.
Qed.

(** The first [n] elements of a descending list dominate the rest. *)
Lemma descending_take_drop key s n a b :
  descending key s -> a ∈ take n s -> b ∈ drop n s -> (key b <= key a)%Q.
Proof.
  unfold descending. intros Hs. revert n.
  induction Hs as [|y s Hs IH Hy]; intros n Ha Hb.
  - rewrite take_nil in Ha. by apply elem_of_nil in Ha.
  - destruct n as [|n]; simpl in *; [by apply elem_of_nil in Ha|].
    apply elem_of_cons in Ha as [->|Ha].
    + rewrite Forall_forall in Hy. apply Hy.
      by apply (subseteq_drop n s).
    + by apply (IH n).
Qed.
End PyListFacts.

(** ** Normalisation and fusion *)

Section Fusion.
Import Ranker.

Lemma unit_range_score (s : Q) :
  ((s - min_score) / (max_score - min_score))%Q = s.
Proof.
  destruct s as [p q]. unfold min_score, max_score.
  unfold Qdiv, Qminus, Qplus, Qmult, Qinv, Qopp. simpl.
  f_equal; [lia|]. by rewrite !Pos.mul_1_r.
Qed.

Lemma normalize_list_id (doc_list : list Candidate) :
  normalize_list doc_list = doc_list.
Proof.
  destruct doc_list as [|d l]; [done|].
  unfold normalize_list.
  change (Qeq_bool max_score min_score) with false. cbv iota.
  transitivity (id <$> (d :: l)); [|apply list_fmap_id].
  apply list_fmap_ext. intros _ doc _.
  destruct doc as [dn sc fq]. simpl. by rewrite unit_range_score.
Qed.

(** The ranked dictionaries carry the candidates they were built from. *)
Lemma candidate_of_ranked (l : list Candidate) :
  candidate_of <$>
    imap (fun rank doc =>
            mkRanked (Z.of_nat rank + 1) (cand_docno doc) (cand_score doc)
              (cand_from_query doc)) l
  = l.
Proof.
  rewrite fmap_imap. transitivity (imap (const id) l).
  - apply imap_ext. intros i [dn sc fq] _. done.
  - by rewrite imap_const, list_fmap_id.
Qed.

Lemma ranked_ranks_dense (l : list Candidate) :
  doc_rank <$>
    imap (fun rank doc =>
            mkRanked (Z.of_nat rank + 1) (cand_docno doc) (cand_score doc)
              (cand_from_query doc)) l
  = (fun i => Z.of_nat i + 1) <$> seq 0 (length l).
Proof.
  rewrite fmap_imap, <- imap_seq_0. by apply imap_ext.
Qed.

(** Length of the fused list as the code computes it, for non-negative
    [topn] and [nmax]: the original remainder is counted twice and the
    translated remainder not at all. *)
Lemma get_ranked_list_length (self : state) (topn nmax : Z) :
  0 <= topn -> 0 <= nmax ->
  exists out,
    _get_ranked_list self topn nmax = Returned out /\
    let n := Z.to_nat topn in
    length out =
      (Z.to_nat nmax `min`
         ((n `min` length (original_docs self))
          + (n `min` length (translated_docs self))
          + (n `min` length (expanded_docs self))
          + 2 * (length (original_docs self) - n)
          + (length (expanded_docs self) - n)))%nat.
Proof.
  intros Htop Hmax. eexists. split; [reflexivity|]. simpl.
  rewrite length_imap. unfold final_ranked_list.
  rewrite !slice_to_nonneg, !slice_from_nonneg by done.
  rewrite length_take, !length_app, !length_take, !sorted_reverse_length.
  rewrite !length_app, !length_drop. lia.
Qed.
End Fusion.

(** C10. Under the bounds the code fixes ([max_score = 1], [min_score = 0])
    normalisation changes nothing: every list of the ranker, and so every
    score in it, is the same after [_normalize] as before. *)
Theorem normalize_default_is_identity (self : Ranker.state) :
  Ranker._normalize self = self.
Proof.
  destruct self as [o t e]. unfold Ranker._normalize. simpl.
  by rewrite !normalize_list_id.
Qed.

(** C3. On the input [original = []], [translated = [C 0.8; D 0.7]],
    [expanded = []], [topn = 1], [nmax = 10] the fused list is [[C]]: its
    length is 1, not [min 10 (0 + 2 + 0) = 2], because the translated
    remainder is sliced from the original list. With
    [original = [A 0.9; B 0.5]] alone the remainder [B] comes out twice. *)
Theorem fusion_cardinality_fails :
  (exists out,
     Ranker.rank [] [("C", 0.8%Q); ("D", 0.7%Q)] [] 1 10 = Returned out /\
     doc_docno <$> out = ["C"] /\
     length out <> (10 `min` (0 + 2 + 0))%nat) /\
  (exists out,
     Ranker.rank [("A", 0.9%Q); ("B", 0.5%Q)] [] [] 1 10 = Returned out /\
     doc_docno <$> out = ["A"; "B"; "B"] /\
     length out <> (10 `min` (2 + 0 + 0))%nat).
Proof.
  split; eexists; (split; [vm_compute; reflexivity|]); split;
    [reflexivity|simpl; lia|reflexivity|simpl; lia].
Qed.

(** C5. For [topn >= 0] and [nmax >= 0] the output of [_get_ranked_list]
    starts with the first [topn] entries of the original list sorted by
    score, descending and stable on ties, then the same slice of the
    translated list, then of the expanded list, all cut at [nmax]; the
    original slice has [min topn (len original)] entries. *)
Theorem fusion_quota (self : Ranker.state) (topn nmax : Z) :
  0 <= topn -> 0 <= nmax ->
  exists out so st se,
    Ranker._get_ranked_list self topn nmax = Returned out /\
    stable_descending cand_score (Ranker.original_docs self) so /\
    stable_descending cand_score (Ranker.translated_docs self) st /\
    stable_descending cand_score (Ranker.expanded_docs self) se /\
    let n := Z.to_nat topn in
    let head := take n so ++ take n st ++ take n se in
    length (take n so) = (n `min` length (Ranker.original_docs self))%nat /\
    take (length head) (candidate_of <$> out) = take (Z.to_nat nmax) head.
Proof.
  intros Htop Hmax.
  exists (imap (fun rank doc =>
                  mkRanked (Z.of_nat rank + 1) (cand_docno doc) (cand_score doc)
                    (cand_from_query doc))
            (slice_to (Ranker.final_ranked_list self topn) nmax)),
    (sorted_reverse cand_score (Ranker.original_docs self)),
    (sorted_reverse cand_score (Ranker.translated_docs self)),
    (sorted_reverse cand_score (Ranker.expanded_docs self)).
  split; [reflexivity|].
  do 3 (split; [apply sorted_reverse_spec|]).
  simpl. split.
  - by rewrite length_take, sorted_reverse_length.
  - rewrite candidate_of_ranked. unfold Ranker.final_ranked_list.
    rewrite !slice_to_nonneg by done.
    rewrite take_take, Nat.min_comm, <- take_take.
    f_equal. rewrite !app_assoc. by rewrite take_app_length.
Qed.

Lemma fusion_quota_witness :
  exists out so st se,
    Ranker._get_ranked_list
      (Ranker.mkState [mkCandidate "A" 0.9%Q original; mkCandidate "B" 0.5%Q original]
         [mkCandidate "C" 0.8%Q translated] []) 1 3 = Returned out /\
    stable_descending cand_score
      [mkCandidate "A" 0.9%Q original; mkCandidate "B" 0.5%Q original] so /\
    stable_descending cand_score [mkCandidate "C" 0.8%Q translated] st /\
    stable_descending cand_score [] se /\
    let n := Z.to_nat 1 in
    let head := take n so ++ take n st ++ take n se in
    length (take n so) = (n `min` 2)%nat /\
    take (length head) (candidate_of <$> out) = take (Z.to_nat 3) head.
Proof.
  apply (fusion_quota
           (Ranker.mkState
              [mkCandidate "A" 0.9%Q original; mkCandidate "B" 0.5%Q original]
              [mkCandidate "C" 0.8%Q translated] []) 1 3); lia.
Defined.

(** C6, as stated, fails: with [topn = 0] the call is not rejected. *)
Lemma config_error_not_raised :
  ~ (exists msg, Ranker.rank [("A", 0.9%Q)] [] [] 0 3 = Raised msg).
Proof. intros [msg H]. vm_compute in H. discriminate. Qed.

(** C6, amended. No check of [topn] or [nmax] exists: for all integers,
    positive or not and in any order, [rank] returns a list, whose ranks
    are [1 .. len]. *)
Theorem rank_never_rejects (original_docs translated_docs expanded_docs : list (string * Q))
    (topn nmax : Z) :
  exists out,
    Ranker.rank original_docs translated_docs expanded_docs topn nmax = Returned out /\
    doc_rank <$> out = (fun i => Z.of_nat i + 1) <$> seq 0 (length out).
Proof.
  eexists. split; [reflexivity|].
  rewrite length_imap. apply ranked_ranks_dense.
Qed.

(** ** Reasoning about stateful computations *)

Section MonadFacts.
Context {S : Type}.

Lemma run_bind {A B} (m : M S A) (k : A -> M S B) (s : S) :
  (m ≫= k) s =
  match m s with
  | (Returned a, s') => k a s'
  | (Raised msg, s') => (Raised msg, s')
  end.
Proof. reflexivity. Qed.

Lemma run_ret {A} (a : A) (s : S) : (mret a : M S A) s = (Returned a, s).
Proof. reflexivity. Qed.

Context (P : S -> S -> Prop).
Hypothesis P_refl : forall s, P s s.
Hypothesis P_trans : forall s1 s2 s3, P s1 s2 -> P s2 s3 -> P s1 s3.

Lemma preserves_ret {A} (a : A) : preserves P (mret a : M S A).
Proof. intros s. apply P_refl. Qed.

Lemma preserves_lift {A} (o : outcome A) : preserves P (lift o : M S A).
Proof. intros s. apply P_refl. Qed.

Lemma preserves_bind {A B} (m : M S A) (k : A -> M S B) :
  preserves P m ->
  (forall a, returns m a -> preserves P (k a)) ->
  preserves P (m ≫= k).
Proof.
  intros Hm Hk s. rewrite run_bind. specialize (Hm s).
  destruct (m s) as [[a|msg] s'] eqn:Hrun; simpl in *; [|done].
  eapply P_trans; [exact Hm|]. apply Hk. by exists s, s'.
Qed.

Lemma preserves_for_each {A} (l : list A) (body : A -> M S unit) :
  (forall x, x ∈ l -> preserves P (body x)) ->
  preserves P (for_each l body).
Proof.
  induction l as [|x l IH]; intros Hbody; simpl.
  - apply preserves_ret.
  - apply preserves_bind.
    + apply Hbody. by left.
    + intros _ _. apply IH. intros y Hy. apply Hbody. by right.
Qed.

End MonadFacts.

(** ** The store: what a computation may touch *)

Section StoreFacts.
Implicit Types (h : heap) (l : loc) (L : loc -> Prop).

Lemma same_outside_refl L h : same_outside L h h.
Proof. by intros l _. Qed.

Lemma same_outside_trans L h1 h2 h3 :
  same_outside L h1 h2 -> same_outside L h2 h3 -> same_outside L h1 h3.
Proof. intros H12 H23 l Hl. by rewrite H23, H12. Qed.

Lemma outside_ret {A} L (a : A) : preserves (same_outside L) (mret a : M heap A).
Proof. apply preserves_ret, same_outside_refl. Qed.

Lemma outside_lift {A} L (o : outcome A) : preserves (same_outside L) (lift o).
Proof. apply preserves_lift, same_outside_refl. Qed.

Lemma outside_bind {A B} L (m : M heap A) (k : A -> M heap B) :
  preserves (same_outside L) m ->
  (forall a, returns m a -> preserves (same_outside L) (k a)) ->
  preserves (same_outside L) (m ≫= k).
Proof. apply preserves_bind, same_outside_trans. Qed.

Lemma outside_for_each {A} L (xs : list A) (body : A -> M heap unit) :
  (forall x, x ∈ xs -> preserves (same_outside L) (body x)) ->
  preserves (same_outside L) (for_each xs body).
Proof.
  apply preserves_for_each; [apply same_outside_refl|apply same_outside_trans].
Qed.

Lemma read_run h l d : h !! l = Some d -> read l h = (Returned d, h).
Proof. intros Hd. unfold read. by rewrite Hd. Qed.

Lemma read_state h l : (read l h).2 = h.
Proof. unfold read. by destruct (h !! l). Qed.

Lemma read_preserves L l : preserves (same_outside L) (read l).
Proof. intros h. rewrite read_state. apply same_outside_refl. Qed.

Lemma set_score_preserves L l q :
  L l -> preserves (same_outside L) (set_score l q).
Proof.
  intros HL h l' Hl'. unfold set_score.
  destruct (h !! l) as [d|]; simpl; [|done].
  apply lookup_insert_ne. by intros ->.
Qed.

Lemma set_rank_preserves L l r :
  L l -> preserves (same_outside L) (set_rank l r).
Proof.
  intros HL h l' Hl'. unfold set_rank.
  destruct (h !! l) as [d|]; simpl; [|done].
  apply lookup_insert_ne. by intros ->.
Qed.

(** Reading a list of references leaves the store alone and, when it
    returns, pairs every reference with its score, in order. *)
Lemma for_list_read_inv (part : list loc) h :
  (for_list part (fun l => doc ← read l; mret (l, doc_score doc)) h).2 = h /\
  forall keyed,
    (for_list part (fun l => doc ← read l; mret (l, doc_score doc)) h).1
    = Returned keyed ->
    keyed.*1 = part.
Proof.
  induction part as [|l part [IHs IHv]]; simpl.
  - split; [done|]. intros keyed [= <-]. done.
  - rewrite !run_bind. unfold read at 1 3.
    destruct (h !! l) as [d|]; simpl; [|split; [done|intros ? [=]]].
    rewrite !run_bind.
    destruct (for_list part _ h) as [[ys|msg] h'] eqn:Hrun; simpl in *;
      [|split; [done|intros ? [=]]].
    split; [done|]. intros keyed [= <-]. simpl. f_equal. by apply IHv.
Qed.

Lemma for_list_read_run (part : list loc) h :
  (forall l, l ∈ part -> is_Some (h !! l)) ->
  exists keyed,
    for_list part (fun l => doc ← read l; mret (l, doc_score doc)) h
    = (Returned keyed, h) /\ keyed.*1 = part.
Proof.
  induction part as [|l part IH]; intros Hin; simpl.
  - by exists [].
  - destruct (Hin l) as [d Hd]; [by left|].
    destruct IH as (keyed & Hrun & Hk); [intros; apply Hin; by right|].
    exists ((l, doc_score d) :: keyed). split; [|simpl; by f_equal].
    rewrite run_bind, run_bind, (read_run _ _ _ Hd). simpl.
    by rewrite run_bind, Hrun.
Qed.
End StoreFacts.

(** ** Reranking *)

Section Rerank.
Import Ranker.
Implicit Types (h : heap) (l : loc) (rl : list loc) (sim : list (list Q)).

Lemma dense_ranks_NoDup h rl : dense_ranks h rl -> NoDup rl.
Proof.
  intros Hd. apply NoDup_alt. intros i j l Hi Hj.
  destruct (Hd i l Hi) as (d & Hl & Hr).
  destruct (Hd j l Hj) as (d' & Hl' & Hr').
  simplify_eq. lia.
Qed.

Lemma next_rank_found h docno (selected : nat) :
  forall rl l d,
    (forall (j : nat) l', (j < selected)%nat -> rl !! j = Some l' ->
       exists d', h !! l' = Some d' /\ doc_docno d' <> docno) ->
    rl !! selected = Some l -> h !! l = Some d -> doc_docno d = docno ->
    next_rank rl docno h = (Returned (Some (doc_rank d)), h).
Proof.
  induction selected as [|k IH]; intros [|l0 rl] l d Hpre Hl Hd Hx;
    simplify_eq/=.
  - rewrite run_bind, (read_run _ _ _ Hd). by rewrite decide_True.
  - destruct (Hpre 0%nat l0) as (d0 & Hd0 & Hne); [lia|done|].
    rewrite run_bind, (read_run _ _ _ Hd0). rewrite decide_False by done.
    eapply IH; eauto. intros j l' Hj Hl'. apply (Hpre (Datatypes.S j)); [lia|done].
Qed.

Lemma next_rank_selected h rl docno selected :
  dense_ranks h rl -> found_at h rl docno selected ->
  next_rank rl docno h = (Returned (Some (Z.of_nat selected + 1)), h).
Proof.
  intros Hd (l & d & Hl & Hh & Hx & Hfirst).
  destruct (Hd _ _ Hl) as (d' & Hh' & Hr). simplify_eq.
  rewrite <- Hr. eapply next_rank_found; eauto.
  intros j l' Hj Hl'. destruct (Hd _ _ Hl') as (d' & Hh' & _).
  exists d'. split; [done|]. by eapply Hfirst.
Qed.

Lemma range_nat (a : nat) (b : Z) :
  range (Z.of_nat a) b = Z.of_nat <$> seq a (Z.to_nat (b - Z.of_nat a)).
Proof.
  unfold range. generalize (Z.to_nat (b - Z.of_nat a)). intros n.
  replace (seq a n) with (Nat.add a <$> seq 0 n)
    by (rewrite fmap_add_seq; f_equal; lia).
  rewrite <- list_fmap_compose.
  apply list_fmap_ext. intros _ k _. simpl. lia.
Qed.

Lemma py_index_inv {A} (xs : list A) (i : Z) x :
  py_index xs i = Returned x -> 0 <= i -> xs !! Z.to_nat i = Some x.
Proof.
  unfold py_index. intros H Hi.
  rewrite (proj2 (Z.leb_le 0 i) Hi) in H.
  destruct (_ && _); [|done].
  by destruct (xs !! Z.to_nat i); simplify_eq.
Qed.

Lemma update_doc_preserves rl fb sim (selected : nat) (i : Z) :
  Z.of_nat selected < i ->
  preserves (same_outside (suffix_loc rl selected))
    (update_doc rl fb sim (Z.of_nat selected) i).
Proof.
  intros Hi. unfold update_doc.
  apply outside_bind; [apply outside_lift|].
  intros l (h0 & h1 & Hret). unfold lift in Hret. simplify_eq.
  match goal with H : py_index _ _ = _ |- _ => apply py_index_inv in H; [|lia] end.
  apply outside_bind; [apply read_preserves|].
  intros d _.
  apply outside_bind; [apply outside_lift|].
  intros [q|] _; [|apply outside_ret].
  apply set_score_preserves. exists (Z.to_nat i). split; [lia|done].
Qed.

Lemma sorted_by_score_inv (part : list loc) h :
  (sorted_by_score part h).2 = h /\
  forall out, (sorted_by_score part h).1 = Returned out -> out ≡ₚ part.
Proof.
  unfold sorted_by_score. rewrite run_bind.
  destruct (for_list_read_inv part h) as [Hs Hv].
  destruct (for_list part _ h) as [[keyed|msg] h'] eqn:Hrun; simpl in *;
    subst h'; (split; [done|]); [|intros ? [=]].
  intros out [= <-]. rewrite <- (Hv keyed eq_refl).
  apply fmap_Permutation, sorted_reverse_perm.
Qed.

Lemma enumerate_snd {A} (xs : list A) (start : Z) : (enumerate xs start).*2 = xs.
Proof.
  unfold enumerate. rewrite fmap_imap.
  transitivity (imap (const id) xs); [by apply imap_ext|].
  by rewrite imap_const, list_fmap_id.
Qed.

Lemma set_rank_loop_preserves L (pairs : list (Z * loc)) :
  (forall l, l ∈ pairs.*2 -> L l) ->
  preserves (same_outside L)
    (for_each pairs (fun '(rank, doc) => set_rank doc rank)).
Proof.
  intros HL. apply outside_for_each.
  intros [r l] Hin. apply set_rank_preserves, HL.
  apply list_elem_of_fmap. by exists (r, l).
Qed.
Lemma elem_of_range (a b i : Z) : i ∈ range a b <-> a <= i < b.
Proof.
  unfold range. rewrite list_elem_of_fmap. split.
  - intros (k & -> & Hk). apply elem_of_seq in Hk. lia.
  - intros Hi. exists (Z.to_nat (i - a)). split; [lia|].
    apply elem_of_seq. lia.
Qed.

Lemma found_at_lt h rl docno selected :
  found_at h rl docno selected -> (selected < length rl)%nat.
Proof. intros (l & d & Hl & _). by eapply lookup_lt_Some. Qed.

Lemma suffix_slices rl (selected : nat) (part : list loc) :
  (selected < length rl)%nat ->
  slice_to rl (Z.of_nat selected + 1) = take (Datatypes.S selected) rl /\
  slice_from rl (Z.of_nat selected + 1) = drop (Datatypes.S selected) rl /\
  slice_from (take (Datatypes.S selected) rl ++ part) (Z.of_nat selected + 1) = part.
Proof.
  intros Hlt.
  rewrite slice_to_nonneg, !slice_from_nonneg by lia.
  replace (Z.to_nat (Z.of_nat selected + 1)) with (Datatypes.S selected) by lia.
  repeat split.
  rewrite drop_app_length'; [done|]. rewrite length_take. lia.
Qed.

(** A returning run yields the untouched prefix followed by a
    rearrangement of the suffix. *)
Lemma rerank_selected_inv rl fb sim (selected : nat) h out h' :
  (selected < length rl)%nat ->
  rerank_selected rl fb sim (Z.of_nat selected) h = (Returned out, h') ->
  exists part,
    out = take (Datatypes.S selected) rl ++ part /\
    part ≡ₚ drop (Datatypes.S selected) rl.
Proof.
  intros Hlt. unfold rerank_selected. rewrite run_bind.
  destruct (for_each _ _ h) as [[[]|msg] h1]; [|done].
  rewrite run_bind.
  destruct (sorted_by_score_inv (slice_from rl (Z.of_nat selected + 1)) h1)
    as [_ Hperm].
  destruct (sorted_by_score _ h1) as [[part|msg] h2]; [|done].
  specialize (Hperm part eq_refl). rewrite run_bind.
  destruct (for_each _ _ h2) as [[[]|msg] h3]; [|done].
  intros [= <- <-]. exists part.
  destruct (suffix_slices rl selected part Hlt) as (-> & Hd & _).
  by rewrite Hd in Hperm.
Qed.

Lemma rerank_selected_preserves rl fb sim (selected : nat) :
  (selected < length rl)%nat ->
  preserves (same_outside (suffix_loc rl selected))
    (rerank_selected rl fb sim (Z.of_nat selected)).
Proof.
  intros Hlt. unfold rerank_selected.
  apply outside_bind.
  { apply outside_for_each. intros i Hi. apply elem_of_range in Hi.
    apply update_doc_preserves. lia. }
  intros _ _. apply outside_bind.
  { intros h. rewrite (proj1 (sorted_by_score_inv _ h)).
    apply same_outside_refl. }
  intros part (h0 & h1 & Hrun).
  pose proof (proj2 (sorted_by_score_inv
                       (slice_from rl (Z.of_nat selected + 1)) h0) part) as Hperm.
  rewrite Hrun in Hperm. specialize (Hperm eq_refl).
  destruct (suffix_slices rl selected part Hlt) as (-> & Hd & ->).
  rewrite Hd in Hperm.
  apply outside_bind; [|intros; apply outside_ret].
  apply set_rank_loop_preserves. rewrite enumerate_snd.
  intros l Hl. rewrite Hperm in Hl.
  apply list_elem_of_lookup in Hl as [k Hk].
  rewrite lookup_drop in Hk. eexists. split; [|exact Hk]. lia.
Qed.

(** Whatever the outcome, [rerank] leaves alone every dictionary that is
    not held after the selected position; and a returned list starts
    with the same references as the input, up to the selected one. *)
Lemma rerank_frame h rl fb sim selected :
  dense_ranks h rl -> found_at h rl (fb_docno fb) selected ->
  same_outside (suffix_loc rl selected) h (rerank rl fb sim h).2 /\
  forall out, (rerank rl fb sim h).1 = Returned out ->
    take (Datatypes.S selected) out = take (Datatypes.S selected) rl.
Proof.
  intros Hd Hf. pose proof (found_at_lt _ _ _ _ Hf) as Hlt.
  unfold rerank, try_error.
  rewrite run_bind, (next_rank_selected _ _ _ _ Hd Hf).
  replace (Z.of_nat selected + 1 - 1) with (Z.of_nat selected) by lia.
  pose proof (rerank_selected_preserves rl fb sim selected Hlt h) as Hp.
  pose proof (rerank_selected_inv rl fb sim selected h) as Hi.
  destruct (rerank_selected rl fb sim (Z.of_nat selected) h) as [[out|msg] h'];
    simpl in *; (split; [done|]); [|done].
  intros ? [= <-].
  destruct (Hi out h' Hlt eq_refl) as (part & -> & _).
  rewrite take_app_le by (rewrite length_take; lia).
  rewrite take_take. f_equal. lia.
Qed.
(** *** Runs that return *)

Lemma py_index_neg {A} (xs : list A) (p : nat) x :
  (p < length xs)%nat -> xs !! neg_index (length xs) p = Some x ->
  py_index xs (- Z.of_nat p) = Returned x.
Proof.
  intros Hp Hx. unfold neg_index in Hx. destruct (decide (p = 0%nat)) as [->|Hne].
  - by apply (py_index_nat xs 0).
  - unfold py_index.
    rewrite (proj2 (Z.leb_gt 0 (- Z.of_nat p))) by lia.
    rewrite (proj2 (Z.leb_le 0 _)) by lia.
    rewrite (proj2 (Z.ltb_lt _ _)) by lia. simpl.
    replace (Z.to_nat (Z.of_nat (length xs) + - Z.of_nat p))
      with (length xs - p)%nat by lia.
    by rewrite Hx.
Qed.

Lemma list_index_bound (v : Q) (xs : list Q) (z : Z) :
  list_index v xs = Returned z -> 0 <= z < Z.of_nat (length xs).
Proof.
  revert z. induction xs as [|x xs IH]; intros z; simpl; [done|].
  destruct (Qeq_bool x v); [intros [= <-]; lia|].
  destruct (list_index v xs) as [p|]; [|done].
  intros [= <-]. specialize (IH p eq_refl). lia.
Qed.

Lemma list_index_found (v : Q) (xs : list Q) :
  v ∈ xs -> exists p : nat, list_index v xs = Returned (Z.of_nat p).
Proof.
  induction 1 as [x xs|x y xs _ [p IH]]; simpl.
  - rewrite (proj2 (Qeq_bool_iff x x)) by reflexivity. by exists 0%nat.
  - destruct (Qeq_bool y x); [by exists 0%nat|].
    rewrite IH. exists (Datatypes.S p). f_equal. lia.
Qed.

Lemma inverse_sim_run (row : list Q) (i p : nat) (s m : Q) :
  row !! i = Some s ->
  list_index s (sorted_reverse id row) = Returned (Z.of_nat p) ->
  sorted_reverse id row !! neg_index (length row) p = Some m ->
  inverse_sim row (Z.of_nat i) = Returned m.
Proof.
  intros Hs Hp Hm. unfold inverse_sim.
  rewrite (py_index_nat _ _ _ Hs), Hp.
  apply list_index_bound in Hp. rewrite sorted_reverse_length in Hp.
  apply py_index_neg; rewrite sorted_reverse_length; [lia|done].
Qed.

Lemma inverse_sim_total (row : list Q) (i : nat) (s : Q) :
  row !! i = Some s ->
  exists (p : nat) (m : Q),
    list_index s (sorted_reverse id row) = Returned (Z.of_nat p) /\
    sorted_reverse id row !! neg_index (length row) p = Some m /\
    inverse_sim row (Z.of_nat i) = Returned m.
Proof.
  intros Hs.
  destruct (list_index_found s (sorted_reverse id row)) as [p Hp].
  { rewrite sorted_reverse_perm. by eapply list_elem_of_lookup_2. }
  pose proof (list_index_bound _ _ _ Hp) as Hb.
  rewrite sorted_reverse_length in Hb.
  destruct (lookup_lt_is_Some_2 (sorted_reverse id row)
              (neg_index (length row) p)) as [m Hm].
  { rewrite sorted_reverse_length. unfold neg_index. case_decide; lia. }
  exists p, m. eauto using inverse_sim_run.
Qed.

Lemma tensor_item_run sim (selected i : nat) (row : list Q) (s : Q) :
  sim !! selected = Some row -> row !! i = Some s ->
  tensor_item sim (Z.of_nat selected) (Z.of_nat i) = Returned s.
Proof.
  intros Hrow Hs. unfold tensor_item.
  by rewrite (py_index_nat _ _ _ Hrow), (py_index_nat _ _ _ Hs).
Qed.

Lemma new_score_positive fb sim (selected i : nat) (row : list Q) (s q : Q) :
  fb_feedback fb = "+" -> sim !! selected = Some row -> row !! i = Some s ->
  new_score fb sim (Z.of_nat selected) (Z.of_nat i) q = Returned (Some (q * s)%Q).
Proof.
  intros Hfb Hrow Hs. unfold new_score.
  rewrite (tensor_item_run _ _ _ _ _ Hrow Hs). by rewrite decide_True.
Qed.

Lemma new_score_negative fb sim (selected i p : nat) (row : list Q) (s m q : Q) :
  fb_feedback fb = "-" -> sim !! selected = Some row -> row !! i = Some s ->
  list_index s (sorted_reverse id row) = Returned (Z.of_nat p) ->
  sorted_reverse id row !! neg_index (length row) p = Some m ->
  new_score fb sim (Z.of_nat selected) (Z.of_nat i) q = Returned (Some (q * m)%Q).
Proof.
  intros Hfb Hrow Hs Hp Hm. unfold new_score.
  rewrite (tensor_item_run _ _ _ _ _ Hrow Hs).
  rewrite decide_False by (rewrite Hfb; done).
  rewrite decide_True by done.
  by rewrite (py_index_nat _ _ _ Hrow), (inverse_sim_run _ _ _ _ _ Hs Hp Hm).
Qed.

Lemma matrix_fits_lookup sim (n selected i : nat) :
  matrix_fits sim n -> (selected < n)%nat -> (i < n)%nat ->
  exists row s, sim !! selected = Some row /\ length row = n /\ row !! i = Some s.
Proof.
  intros [Hlen Hrows] Hsel Hi.
  destruct (lookup_lt_is_Some_2 sim selected) as [row Hrow]; [lia|].
  rewrite Forall_lookup in Hrows. pose proof (Hrows _ _ Hrow) as Hr.
  destruct (lookup_lt_is_Some_2 row i) as [s Hs]; [lia|].
  by exists row, s.
Qed.

Lemma new_score_total fb sim (n selected i : nat) (q : Q) :
  matrix_fits sim n -> (selected < n)%nat -> (i < n)%nat ->
  exists r, new_score fb sim (Z.of_nat selected) (Z.of_nat i) q = Returned r.
Proof.
  intros Hfit Hsel Hi.
  destruct (matrix_fits_lookup _ _ _ _ Hfit Hsel Hi) as (row & s & Hrow & _ & Hs).
  destruct (decide (fb_feedback fb = "+")) as [Hplus|Hnplus].
  { eexists. by eapply new_score_positive. }
  destruct (decide (fb_feedback fb = "-")) as [Hminus|Hnminus].
  { destruct (inverse_sim_total row i s Hs) as (p & m & Hp & Hm & _).
    eexists. by eapply new_score_negative. }
  exists None. unfold new_score.
  rewrite (tensor_item_run _ _ _ _ _ Hrow Hs).
  by rewrite !decide_False.
Qed.

Lemma update_doc_run rl fb sim (sel : Z) (i : nat) h l d r :
  rl !! i = Some l -> h !! l = Some d ->
  new_score fb sim sel (Z.of_nat i) (doc_score d) = Returned r ->
  exists h',
    update_doc rl fb sim sel (Z.of_nat i) h = (Returned (), h') /\
    h' !! l = Some (rescored d r) /\
    forall l', l' <> l -> h' !! l' = h !! l'.
Proof.
  intros Hl Hd Hr. unfold update_doc.
  rewrite run_bind. unfold lift at 1. rewrite (py_index_nat _ _ _ Hl).
  rewrite run_bind, (read_run _ _ _ Hd).
  rewrite run_bind. unfold lift. rewrite Hr.
  destruct r as [q|]; simpl.
  - unfold set_score. rewrite Hd. eexists. split; [done|]. split.
    + apply lookup_insert_eq.
    + intros l' Hne. by apply lookup_insert_ne.
  - exists h. by rewrite run_ret.
Qed.

Lemma update_loop_run rl fb sim (sel : Z) (idx : list nat) :
  NoDup rl -> NoDup idx ->
  forall h,
    (forall i, i ∈ idx -> exists l d r,
         rl !! i = Some l /\ h !! l = Some d /\
         new_score fb sim sel (Z.of_nat i) (doc_score d) = Returned r) ->
    exists h',
      for_each (Z.of_nat <$> idx) (update_doc rl fb sim sel) h = (Returned (), h') /\
      (forall l, (forall i, i ∈ idx -> rl !! i <> Some l) -> h' !! l = h !! l) /\
      (forall i l d r, i ∈ idx -> rl !! i = Some l -> h !! l = Some d ->
         new_score fb sim sel (Z.of_nat i) (doc_score d) = Returned r ->
         h' !! l = Some (rescored d r)).
Proof.
  intros Hrl. induction 1 as [|i idx Hi Hnd IH]; intros h Hok.
  { exists h. split; [done|]. split; [done|]. intros ???? Hin.
    by apply elem_of_nil in Hin. }
  destruct (Hok i) as (l & d & r & Hl & Hd & Hr); [by left|].
  destruct (update_doc_run rl fb sim sel i h l d r Hl Hd Hr)
    as (h1 & Hrun & Hl1 & Hother).
  assert (Hidx : forall j, j ∈ idx -> rl !! j <> Some l).
  { intros j Hj Hjl. assert (j = i); [|by subst].
    exact (NoDup_lookup rl j i l Hrl Hjl Hl). }
  destruct (IH h1) as (h2 & Hrun2 & Hframe & Hval).
  { intros j Hj. destruct (Hok j) as (lj & dj & rj & Hlj & Hdj & Hrj); [by right|].
    exists lj, dj, rj. split; [done|]. split; [|done].
    rewrite Hother; [done|]. intros ->. by apply (Hidx j). }
  exists h2. simpl. rewrite run_bind, Hrun. split; [done|]. split.
  - intros l' Hl'. rewrite Hframe.
    + apply Hother. intros ->. apply (Hl' i); [by left|done].
    + intros j Hj. apply Hl'. by right.
  - intros j lj dj rj Hj Hlj Hdj Hrj.
    apply elem_of_cons in Hj as [->|Hj].
    + simplify_eq. rewrite Hr in Hrj. simplify_eq. by rewrite Hframe.
    + apply (Hval j); try done. rewrite Hother; [done|].
      intros ->. by apply (Hidx j).
Qed.

(** The rank loop returns on live references and changes ranks only. *)
Lemma set_rank_loop_run (pairs : list (Z * loc)) :
  forall h,
    (forall l, l ∈ pairs.*2 -> is_Some (h !! l)) ->
    exists h',
      for_each pairs (fun '(rank, doc) => set_rank doc rank) h = (Returned (), h') /\
      forall l, doc_score <$> h' !! l = doc_score <$> h !! l.
Proof.
  induction pairs as [|[r l] pairs IH]; intros h Hin.
  { by exists h. }
  destruct (Hin l) as [d Hd]; [by left|].
  set (h1 := <[l := mkRanked r (doc_docno d) (doc_score d) (doc_from_query d)]> h).
  assert (Hsc : forall l', doc_score <$> h1 !! l' = doc_score <$> h !! l').
  { intros l'. subst h1. destruct (decide (l' = l)) as [->|Hne].
    - by rewrite lookup_insert_eq, Hd.
    - by rewrite lookup_insert_ne. }
  destruct (IH h1) as (h2 & Hrun & Hsc2).
  { intros l' Hl'. apply fmap_is_Some with (f := doc_score).
    rewrite Hsc. apply fmap_is_Some, Hin. by right. }
  exists h2. split.
  - simpl. rewrite run_bind. unfold set_rank at 1. rewrite Hd. exact Hrun.
  - intros l'. by rewrite Hsc2, Hsc.
Qed.

(** With an [n] by [n] matrix for a list of [n] entries whose ranks
    are dense, [rerank] returns; every dictionary held strictly between
    the selected position and the last one gets the score computed by
    [new_score], and every other dictionary of the list keeps its score. *)
Lemma rerank_run h rl fb sim selected :
  dense_ranks h rl -> found_at h rl (fb_docno fb) selected ->
  matrix_fits sim (length rl) ->
  exists out h',
    rerank rl fb sim h = (Returned out, h') /\
    (forall (i : nat) l d,
       rl !! i = Some l -> h !! l = Some d ->
       (selected < i)%nat -> (i + 1 < length rl)%nat ->
       exists r,
         new_score fb sim (Z.of_nat selected) (Z.of_nat i) (doc_score d) = Returned r /\
         doc_score <$> h' !! l = Some (default (doc_score d) r)) /\
    (forall (i : nat) l d,
       rl !! i = Some l -> h !! l = Some d ->
       (i <= selected)%nat \/ (i + 1 = length rl)%nat ->
       doc_score <$> h' !! l = Some (doc_score d)).
Proof.
  intros Hd Hf Hfit.
  pose proof (found_at_lt _ _ _ _ Hf) as Hlt.
  pose proof (dense_ranks_NoDup _ _ Hd) as Hnd.
  set (n := length rl) in *.
  set (idx := seq (Datatypes.S selected) (n - 1 - Datatypes.S selected)).
  assert (Hidx : forall i, i ∈ idx <-> (selected < i)%nat /\ (i + 1 < n)%nat).
  { intros i. subst idx. rewrite elem_of_seq. lia. }
  destruct (update_loop_run rl fb sim (Z.of_nat selected) idx Hnd
              (NoDup_seq _ _) h) as (h1 & Hloop & Hframe & Hval).
  { intros i Hi. apply Hidx in Hi as [Hi1 Hi2].
    destruct (lookup_lt_is_Some_2 rl i) as [l Hl]; [lia|].
    destruct (Hd _ _ Hl) as (d & Hh & _).
    destruct (new_score_total fb sim n selected i (doc_score d) Hfit)
      as [r Hr]; [lia..|].
    by exists l, d, r. }
  assert (Hlive : forall l, l ∈ rl -> is_Some (h1 !! l)).
  { intros l Hl. apply list_elem_of_lookup in Hl as [i Hl].
    destruct (Hd _ _ Hl) as (d & Hh & _).
    destruct (decide (i ∈ idx)) as [Hin|Hnin].
    - pose proof Hin as Hin'. apply Hidx in Hin' as [Hi1 Hi2].
      destruct (new_score_total fb sim n selected i (doc_score d) Hfit)
        as [r Hr]; [lia..|].
      rewrite (Hval i l d r); eauto.
    - rewrite Hframe; [eauto|]. intros j Hj Hjl.
      assert (j = i) by exact (NoDup_lookup rl j i l Hnd Hjl Hl). by subst. }
  destruct (for_list_read_run (drop (Datatypes.S selected) rl) h1)
    as (keyed & Hread & Hkeyed).
  { intros l Hl. apply Hlive. by apply (subseteq_drop (Datatypes.S selected) rl). }
  set (part := (sorted_reverse snd keyed).*1).
  assert (Hperm : part ≡ₚ drop (Datatypes.S selected) rl).
  { subst part. rewrite <- Hkeyed. apply fmap_Permutation, sorted_reverse_perm. }
  destruct (suffix_slices rl selected part Hlt) as (Hto & Hfrom & Hback).
  destruct (set_rank_loop_run
              (enumerate part (Z.of_nat selected + 2)) h1) as (h2 & Hranks & Hsc).
  { rewrite enumerate_snd. intros l Hl. apply Hlive.
    rewrite Hperm in Hl. by apply (subseteq_drop (Datatypes.S selected) rl). }
  exists (take (Datatypes.S selected) rl ++ part), h2. split; [|split].
  - unfold rerank, try_error.
    rewrite run_bind, (next_rank_selected _ _ _ _ Hd Hf).
    replace (Z.of_nat selected + 1 - 1) with (Z.of_nat selected) by lia.
    unfold rerank_selected. rewrite run_bind.
    replace (Z.of_nat selected + 1) with (Z.of_nat (Datatypes.S selected)) by lia.
    rewrite range_nat.
    replace (Z.to_nat (Z.of_nat (length rl) - 1 - Z.of_nat (Datatypes.S selected)))
      with (n - 1 - Datatypes.S selected)%nat by (subst n; lia).
    fold idx. rewrite Hloop.
    replace (Z.of_nat (Datatypes.S selected)) with (Z.of_nat selected + 1) by lia.
    rewrite run_bind. unfold sorted_by_score. rewrite run_bind.
    rewrite Hfrom, Hread, run_ret. fold part.
    rewrite Hto, Hback, run_bind, Hranks. by rewrite run_ret.
  - intros i l d Hl Hh Hi1 Hi2.
    destruct (new_score_total fb sim n selected i (doc_score d) Hfit)
      as [r Hr]; [subst n; lia..|].
    exists r. split; [done|]. rewrite Hsc.
    rewrite (Hval i l d r); [by destruct r| |done..].
    apply Hidx. by subst n.
  - intros i l d Hl Hh Hi. rewrite Hsc, Hframe; [by rewrite Hh|].
    intros j Hj Hjl. apply Hidx in Hj.
    assert (j = i) by exact (NoDup_lookup rl j i l Hnd Hjl Hl). subst n. lia.
Qed.
End Rerank.

(** ** The scenarios of the specification, run on the code *)

Section ScenarioFacts.
Import Scenario.

Lemma scenario_dense : dense_ranks store ranked.
Proof.
  intros i l Hl.
  destruct i as [|[|[|i]]]; simplify_eq/=; eexists; (split; [reflexivity|done]).
Qed.

Lemma scenario_found (pol : string) :
  found_at store ranked (fb_docno (mkFeedback "A" pol)) 0.
Proof.
  exists 0%nat, A. repeat split. intros j l' d' Hj. lia.
Qed.

Lemma scenario_fits : matrix_fits sim (length ranked).
Proof. split; [done|]. by repeat constructor. Qed.

(** Scenario B on the code: the order is [A, C, B] and [B] is rescored
    to [0.30], but [C], the last entry, keeps [0.4]; the dictionaries
    of the input list are the ones that changed. *)
Lemma scenario_B_run :
  exists h',
    Ranker.rerank ranked positive sim store = (Returned [0; 2; 1]%nat, h') /\
    view h' ranked =
      [Some (mkRanked 1 "A" 1.0 original);
       Some (mkRanked 3 "B" 0.30 original);
       Some (mkRanked 2 "C" 0.4 original)].
Proof. eexists. split; vm_compute; reflexivity. Qed.

(** Scenario C on the code: [B] is rescored with [ordered[-2] = 0.9],
    [C] is not rescored. *)
Lemma scenario_C_run :
  exists h',
    Ranker.rerank ranked negative sim store = (Returned [0; 1; 2]%nat, h') /\
    view h' ranked =
      [Some (mkRanked 1 "A" 1.0 original);
       Some (mkRanked 2 "B" 0.54 original);
       Some (mkRanked 3 "C" 0.4 original)].
Proof. eexists. split; vm_compute; reflexivity. Qed.
End ScenarioFacts.

(** C1, as stated, fails on Scenario C: the claimed mirror of [0.5] in
    row [[1.0; 0.5; 0.9]] is [1.0], which would leave [B] at [0.6]; the
    code multiplies by [ordered[-2] = 0.9]. *)
Lemma mirror_claim_fails :
  exists out h' dB,
    Ranker.rerank Scenario.ranked Scenario.negative Scenario.sim Scenario.store
    = (Returned out, h') /\
    h' !! 1%nat = Some dB /\
    claimed_mirror [1.0; 0.5; 0.9]%Q 0.5%Q = Some 1.0%Q /\
    ~ (doc_score dB == 0.6 * 1.0)%Q.
Proof.
  destruct scenario_C_run as (h' & Hrun & Hview).
  exists [0; 1; 2]%nat, h', (mkRanked 2 "B" 0.54 original).
  split; [done|]. split; [by injection Hview|].
  split; [reflexivity|]. simpl. intros H. vm_compute in H. discriminate.
Qed.

(** C1, amended. With negative feedback, dense ranks and a fitting matrix
    the call returns, and every entry strictly between the selected
    position and the last position gets [score * ordered[-p]], where
    [ordered] is the selected row sorted descending and [p] the first
    position of the entry's similarity in it: [ordered[0]] when [p = 0],
    [ordered[len - p]] otherwise. On Scenario C this gives [B' = 0.54]
    and the order [A, B, C]. *)
Theorem rerank_negative_mirror :
  (forall (h : heap) (rl : list loc) (fb : Feedback) (sim : list (list Q))
          (selected : nat),
     dense_ranks h rl -> found_at h rl (fb_docno fb) selected ->
     matrix_fits sim (length rl) -> fb_feedback fb = "-" ->
     exists out h' row,
       Ranker.rerank rl fb sim h = (Returned out, h') /\
       sim !! selected = Some row /\
       forall (i : nat) l d s,
         rl !! i = Some l -> h !! l = Some d -> row !! i = Some s ->
         (selected < i)%nat -> (i + 1 < length rl)%nat ->
         exists (p : nat) (m : Q),
           list_index s (sorted_reverse id row) = Returned (Z.of_nat p) /\
           sorted_reverse id row !! neg_index (length row) p = Some m /\
           doc_score <$> h' !! l = Some (doc_score d * m)%Q) /\
  (exists h',
     Ranker.rerank Scenario.ranked Scenario.negative Scenario.sim Scenario.store
     = (Returned [0; 1; 2]%nat, h') /\
     doc_docno <$> h' !! 1%nat = Some "B" /\
     doc_score <$> h' !! 1%nat = Some 0.54%Q).
Proof.
  split.
  - intros h rl fb sim selected Hd Hf Hfit Hneg.
    destruct (rerank_run h rl fb sim selected Hd Hf Hfit)
      as (out & h' & Hrun & Hmid & _).
    pose proof (found_at_lt _ _ _ _ Hf) as Hlt.
    destruct (matrix_fits_lookup sim _ selected selected Hfit Hlt Hlt)
      as (row & _ & Hrow & _ & _).
    exists out, h', row. split; [done|]. split; [done|].
    intros i l d s Hl Hh Hs Hi1 Hi2.
    destruct (inverse_sim_total row i s Hs) as (p & m & Hp & Hm & _).
    exists p, m. split; [done|]. split; [done|].
    destruct (Hmid i l d Hl Hh Hi1 Hi2) as (r & Hr & Hsc).
    rewrite (new_score_negative fb sim selected i p row s m _ Hneg Hrow Hs Hp Hm) in Hr.
    by simplify_eq.
  - destruct scenario_C_run as (h' & Hrun & Hview).
    assert (HB : h' !! 1%nat = Some (mkRanked 2 "B" 0.54 original))
      by (by injection Hview).
    exists h'. split; [done|]. by rewrite HB.
Qed.

Lemma rerank_negative_mirror_witness :
  exists out h' row,
    Ranker.rerank Scenario.ranked Scenario.negative Scenario.sim Scenario.store
    = (Returned out, h') /\
    Scenario.sim !! 0%nat = Some row /\
    forall (i : nat) l d s,
      Scenario.ranked !! i = Some l -> Scenario.store !! l = Some d ->
      row !! i = Some s ->
      (0 < i)%nat -> (i + 1 < length Scenario.ranked)%nat ->
      exists (p : nat) (m : Q),
        list_index s (sorted_reverse id row) = Returned (Z.of_nat p) /\
        sorted_reverse id row !! neg_index (length row) p = Some m /\
        doc_score <$> h' !! l = Some (doc_score d * m)%Q.
Proof.
  apply (proj1 rerank_negative_mirror Scenario.store Scenario.ranked
           Scenario.negative Scenario.sim 0%nat).
  - apply scenario_dense.
  - apply scenario_found.
  - apply scenario_fits.
  - reflexivity.
Defined.

(** C2. On Scenario B the code returns the order [A, C, B] and rescores
    [B] to [0.30], but the last entry [C] is not rescored: its score stays
    [0.4] where the claim has [0.4 * 0.9 = 0.36]. *)
Theorem rerank_positive_skips_last_entry :
  exists h' dB dC,
    Ranker.rerank Scenario.ranked Scenario.positive Scenario.sim Scenario.store
    = (Returned [0; 2; 1]%nat, h') /\
    h' !! 1%nat = Some dB /\ (doc_score dB == 0.30)%Q /\
    h' !! 2%nat = Some dC /\ doc_score dC = 0.4%Q /\
    ~ (doc_score dC == 0.36)%Q.
Proof.
  destruct scenario_B_run as (h' & Hrun & Hview).
  assert (HB : h' !! 1%nat = Some (mkRanked 3 "B" 0.30 original))
    by (by injection Hview).
  assert (HC : h' !! 2%nat = Some (mkRanked 2 "C" 0.4 original))
    by (by injection Hview).
  exists h', (mkRanked 3 "B" 0.30 original), (mkRanked 2 "C" 0.4 original).
  repeat (split; [done|]). simpl. intros H. vm_compute in H. discriminate.
Qed.

(** The general form of the slip behind C2: the update loop stops before
    the last position, so the last entry of the list keeps its score. *)
Lemma rerank_last_entry_score_kept h rl fb sim selected (i : nat) l d :
  dense_ranks h rl -> found_at h rl (fb_docno fb) selected ->
  matrix_fits sim (length rl) ->
  rl !! i = Some l -> h !! l = Some d -> (i + 1 = length rl)%nat ->
  exists out h',
    Ranker.rerank rl fb sim h = (Returned out, h') /\
    doc_score <$> h' !! l = Some (doc_score d).
Proof.
  intros Hd Hf Hfit Hl Hh Hi.
  destruct (rerank_run h rl fb sim selected Hd Hf Hfit)
    as (out & h' & Hrun & _ & Hkeep).
  exists out, h'. split; [done|]. eapply Hkeep; eauto.
Qed.

(** C7. On Scenario B the dictionaries of the caller's input list are
    overwritten: read after the call, the input list [A, B, C] shows [B]
    with score [0.30] and rank [3] at position 1 and [C] with rank [2]
    at position 2, so the input list no longer has dense ranks, which
    [rerank] itself relies on when it turns a rank into a position. *)
Theorem rerank_mutates_input :
  exists out h',
    Ranker.rerank Scenario.ranked Scenario.positive Scenario.sim Scenario.store
    = (Returned out, h') /\
    Scenario.view Scenario.store Scenario.ranked =
      [Some Scenario.A; Some Scenario.B; Some Scenario.C] /\
    Scenario.view h' Scenario.ranked =
      [Some Scenario.A;
       Some (mkRanked 3 "B" 0.30 original);
       Some (mkRanked 2 "C" 0.4 original)] /\
    Scenario.view h' Scenario.ranked <> Scenario.view Scenario.store Scenario.ranked /\
    dense_ranks Scenario.store Scenario.ranked /\
    ~ dense_ranks h' Scenario.ranked.
Proof.
  destruct scenario_B_run as (h' & Hrun & Hview).
  assert (HB : h' !! 1%nat = Some (mkRanked 3 "B" 0.30 original))
    by (by injection Hview).
  exists [0; 2; 1]%nat, h'. split; [done|]. split; [reflexivity|].
  split; [done|]. split; [rewrite Hview; vm_compute; discriminate|].
  split; [apply scenario_dense|].
  intros Hdense. destruct (Hdense 1%nat 1%nat eq_refl) as (d & Hd & Hr).
  assert (Hsame : Some d = Some (mkRanked 3 "B" 0.30 original))
    by (rewrite <- Hd; exact HB).
  injection Hsame as ->. simpl in Hr. lia.
Qed.




(** ** The session history *)

Lemma zoom_run {S T A} (get_s : T -> S) (set_s : S -> T -> T) (m : M S A) (t : T) :
  zoom get_s set_s m t = ((m (get_s t)).1, set_s (m (get_s t)).2 t).
Proof. unfold zoom. by destruct (m (get_s t)). Qed.

Lemma py_index_last {A} (xs : list A) :
  py_index xs (-1) =
  match last xs with
  | Some x => Returned x
  | None => Raised "IndexError"
  end.
Proof.
  destruct xs as [|x0 xs _] using rev_ind; [done|].
  rewrite last_snoc. unfold py_index. rewrite length_app. simpl.
  change (0 <=? -1) with false. cbv iota.
  rewrite (proj2 (Z.leb_le 0 _)) by lia.
  rewrite (proj2 (Z.ltb_lt _ _)) by lia. simpl.
  replace (Z.to_nat (Z.of_nat (length xs + 1) + -1)) with (length xs) by lia.
  by rewrite list_lookup_middle.
Qed.


(** What [_rerank] leaves in the history. *)
Lemma rerank_history (env : Collaborators) (fb : Feedback) (g : GUI.state) :
  GUI.search_history (GUI._rerank env fb g).2 =
  match last (GUI.search_history g) with
  | Some last_state =>
      match (Pipeline.rerank env (results last_state) fb (GUI.pipeline g)).1 with
      | Returned reranked =>
          GUI.search_history g
            ++ [mkSearchState (query last_state) reranked (Some fb)]
      | Raised _ => GUI.search_history g
      end
  | None => GUI.search_history g
  end.
Proof.
  unfold GUI._rerank. rewrite run_bind. unfold get at 1.
  rewrite run_bind. unfold lift. rewrite py_index_last.
  destruct (last (GUI.search_history g)) as [last_state|]; [|done].
  unfold try_error. rewrite run_bind. unfold GUI.on_pipeline. rewrite zoom_run.
  by destruct (Pipeline.rerank env (results last_state) fb (GUI.pipeline g))
    as [[reranked|msg] p'].
Qed.



(** The session of the example, run: revising the feedback on [D3] leaves
    the search state followed by the new rerank; a fresh search leaves
    one state. *)
Lemma history_example_run :
  length (GUI.search_history
            (GUI._feedback PairingExample.env "D3" (Some 1) PairingExample.session).2)
  = 2%nat /\
  (feedback <$> GUI.search_history
     (GUI._feedback PairingExample.env "D3" (Some 1) PairingExample.session).2)
  = [None; Some (mkFeedback "D3" "-")] /\
  (feedback <$> GUI.search_history
     (GUI.search PairingExample.env "q" true PairingExample.session).2)
  = [None].
Proof. vm_compute. done. Qed.

(** C4. With the corpus in the order [D1, D2, D3] and the ranked list
    [D3, D1, D2], the matrix [Pipeline.rerank] computes has its rows in
    corpus order, not in the order of the list: the call stores the matrix
    over [one, two, three], and [D1], at position 1 of the list, is
    rescored with entry [0][1] of it, the similarity of [D1] and [D2]
    ([0.9]), instead of the similarity of [D3] and [D1] ([0.1]). *)
Theorem matrix_rows_follow_corpus_order :
  (exists docs h,
     for_list PairingExample.ranked read PairingExample.dicts = (Returned docs, h) /\
     doc_docno <$> docs = ["D3"; "D1"; "D2"] /\
     d_docno <$> ClinicalBERT.selected PairingExample.corpus
                   (elements (list_to_set (doc_docno <$> docs) : gset string))
     = ["D1"; "D2"; "D3"]) /\
  (exists out p' d1,
     Pipeline.rerank PairingExample.env PairingExample.ranked PairingExample.liked
       PairingExample.pipeline0 = (Returned out, p') /\
     Pipeline.similarity_matrix p' =
       [ [1.0; 0.9; 0.1]; [0.9; 1.0; 0.5]; [0.1; 0.5; 1.0] ]%Q /\
     Pipeline.store p' !! 1%nat = Some d1 /\
     doc_docno d1 = "D1" /\
     (doc_score d1 == 0.6 * PairingExample.sim_text "one" "two")%Q /\
     ~ (doc_score d1 == 0.6 * PairingExample.sim_text "three" "one")%Q).
Proof.
  split.
  - eexists _, _. split; [vm_compute; reflexivity|]. split; vm_compute; reflexivity.
  - eexists _, _, _. split; [vm_compute; reflexivity|].
    split; [reflexivity|]. split; [vm_compute; reflexivity|].
    split; [reflexivity|]. split; [reflexivity|].
    intros H. vm_compute in H. discriminate.
Qed.

(** * Further properties of the modelled code *)

(** ** Deduplication and fusion *)

Lemma elem_of_slice_to {A} (l : list A) (k : Z) (x : A) : x ∈ slice_to l k -> x ∈ l.
Proof. unfold slice_to. destruct (0 <=? k); apply subseteq_take. Qed.

Lemma elem_of_slice_from {A} (l : list A) (k : Z) (x : A) : x ∈ slice_from l k -> x ∈ l.
Proof. unfold slice_from. destruct (0 <=? k); apply subseteq_drop. Qed.

Lemma elem_of_sorted_reverse {A} (key : A -> Q) (l : list A) (x : A) :
  x ∈ sorted_reverse key l <-> x ∈ l.
Proof. by rewrite sorted_reverse_perm. Qed.

(** X1. [_remove_doubles] keeps the original list as it is and keeps of
    the translated and of the expanded list exactly the entries whose
    docno is not a docno of the original list, in their order; the two
    secondary lists are not compared with each other. *)
Theorem remove_doubles_exclusive (self : Ranker.state) :
  Ranker.original_docs (Ranker._remove_doubles self) = Ranker.original_docs self /\
  (forall d, d ∈ Ranker.translated_docs (Ranker._remove_doubles self) <->
     d ∈ Ranker.translated_docs self /\
     cand_docno d ∉ cand_docno <$> Ranker.original_docs self) /\
  (forall d, d ∈ Ranker.expanded_docs (Ranker._remove_doubles self) <->
     d ∈ Ranker.expanded_docs self /\
     cand_docno d ∉ cand_docno <$> Ranker.original_docs self) /\
  sublist (Ranker.translated_docs (Ranker._remove_doubles self))
    (Ranker.translated_docs self) /\
  sublist (Ranker.expanded_docs (Ranker._remove_doubles self))
    (Ranker.expanded_docs self).
Proof.
  unfold Ranker._remove_doubles. simpl. split; [done|].
  split; [|split; [|split; apply sublist_filter]].
  - intros d. rewrite list_elem_of_filter, elem_of_list_to_set. tauto.
  - intros d. rewrite list_elem_of_filter, elem_of_list_to_set. tauto.
Qed.

(** X2. Every entry [rank] returns is one of the input tuples, tagged
    with the list it came from; an entry tagged translated or expanded
    never carries a docno of the original list. This holds for every
    [topn] and [nmax]. *)
Theorem rank_entries_come_from_inputs
    (original_docs translated_docs expanded_docs : list (string * Q)) (topn nmax : Z) :
  exists out,
    Ranker.rank original_docs translated_docs expanded_docs topn nmax = Returned out /\
    forall d, d ∈ out ->
      (doc_from_query d = original /\ (doc_docno d, doc_score d) ∈ original_docs) \/
      (doc_from_query d = translated /\
       (doc_docno d, doc_score d) ∈ translated_docs /\
       doc_docno d ∉ original_docs.*1) \/
      (doc_from_query d = expanded /\
       (doc_docno d, doc_score d) ∈ expanded_docs /\
       doc_docno d ∉ original_docs.*1).
Proof.
  eexists. split; [reflexivity|]. intros d Hd.
  unfold Ranker._normalize in Hd. simpl in Hd. rewrite !normalize_list_id in Hd.
  apply list_elem_of_lookup in Hd as [i Hd].
  rewrite list_lookup_imap in Hd.
  destruct (slice_to _ nmax !! i) as [c|] eqn:Hc; simplify_eq/=.
  apply list_elem_of_lookup_2, elem_of_slice_to in Hc.
  set (o := (fun doc : string * Q => mkCandidate doc.1 doc.2 original) <$> original_docs) in *.
  assert (Ho : forall c, c ∈ o ->
            cand_from_query c = original /\ (cand_docno c, cand_score c) ∈ original_docs).
  { intros c' Hc'. apply list_elem_of_fmap in Hc' as ([dn sc] & -> & Hin). by simpl. }
  assert (Hdocnos : cand_docno <$> o = original_docs.*1).
  { subst o. rewrite <- list_fmap_compose. by apply list_fmap_ext. }
  assert (Ht : forall c,
            c ∈ filter (fun doc => cand_docno doc ∉ (list_to_set (cand_docno <$> o) : gset string))
                  ((fun doc : string * Q => mkCandidate doc.1 doc.2 translated) <$> translated_docs) ->
            cand_from_query c = translated /\
            (cand_docno c, cand_score c) ∈ translated_docs /\
            cand_docno c ∉ original_docs.*1).
  { intros c' Hc'. apply list_elem_of_filter in Hc' as [Hn Hc'].
    rewrite elem_of_list_to_set, Hdocnos in Hn.
    apply list_elem_of_fmap in Hc' as ([dn sc] & -> & Hin). by simpl in *. }
  assert (He : forall c,
            c ∈ filter (fun doc => cand_docno doc ∉ (list_to_set (cand_docno <$> o) : gset string))
                  ((fun doc : string * Q => mkCandidate doc.1 doc.2 expanded) <$> expanded_docs) ->
            cand_from_query c = expanded /\
            (cand_docno c, cand_score c) ∈ expanded_docs /\
            cand_docno c ∉ original_docs.*1).
  { intros c' Hc'. apply list_elem_of_filter in Hc' as [Hn Hc'].
    rewrite elem_of_list_to_set, Hdocnos in Hn.
    apply list_elem_of_fmap in Hc' as ([dn sc] & -> & Hin). by simpl in *. }
  unfold Ranker.final_ranked_list in Hc. simpl in Hc.
  repeat (apply elem_of_app in Hc as [Hc|Hc]).
  - left. apply Ho. by eapply elem_of_sorted_reverse, elem_of_slice_to.
  - right; left. apply Ht. by eapply elem_of_sorted_reverse, elem_of_slice_to.
  - right; right. apply He. by eapply elem_of_sorted_reverse, elem_of_slice_to.
  - apply elem_of_sorted_reverse in Hc.
    repeat (apply elem_of_app in Hc as [Hc|Hc]).
    + left. apply Ho. by eapply elem_of_slice_from.
    + left. apply Ho. by eapply elem_of_slice_from.
    + right; right. apply He. by eapply elem_of_slice_from.
Qed.

(** X3. When no list is longer than [topn], nothing is left for the
    remainder: the fused list is the three lists, each sorted by score
    (descending, stable), one after the other and cut at [nmax], and its
    length is [min nmax (len original + len translated + len expanded)]. *)
Theorem fusion_without_remainder (self : Ranker.state) (topn nmax : Z) :
  0 <= nmax ->
  Z.of_nat (length (Ranker.original_docs self)) <= topn ->
  Z.of_nat (length (Ranker.translated_docs self)) <= topn ->
  Z.of_nat (length (Ranker.expanded_docs self)) <= topn ->
  exists out,
    Ranker._get_ranked_list self topn nmax = Returned out /\
    candidate_of <$> out =
      take (Z.to_nat nmax)
        (sorted_reverse cand_score (Ranker.original_docs self)
           ++ sorted_reverse cand_score (Ranker.translated_docs self)
           ++ sorted_reverse cand_score (Ranker.expanded_docs self)) /\
    length out =
      (Z.to_nat nmax `min`
         (length (Ranker.original_docs self)
          + length (Ranker.translated_docs self)
          + length (Ranker.expanded_docs self)))%nat.
Proof.
  intros Hmax Ho Ht He.
  assert (Htop : 0 <= topn) by lia.
  eexists. split; [reflexivity|].
  assert (Hfinal : Ranker.final_ranked_list self topn =
            sorted_reverse cand_score (Ranker.original_docs self)
              ++ sorted_reverse cand_score (Ranker.translated_docs self)
              ++ sorted_reverse cand_score (Ranker.expanded_docs self)).
  { unfold Ranker.final_ranked_list.
    rewrite !slice_to_nonneg, !slice_from_nonneg by done.
    rewrite !take_ge by (rewrite sorted_reverse_length; lia).
    rewrite !drop_ge by lia. simpl. by rewrite app_nil_r. }
  split.
  - rewrite candidate_of_ranked, Hfinal. by rewrite slice_to_nonneg.
  - rewrite length_imap, Hfinal, slice_to_nonneg by done.
    rewrite length_take, !length_app, !sorted_reverse_length. lia.
Qed.

Lemma fusion_without_remainder_witness :
  exists out,
    Ranker._get_ranked_list
      (Ranker.mkState [mkCandidate "A" 0.9%Q original; mkCandidate "B" 0.5%Q original]
         [mkCandidate "C" 0.8%Q translated] []) 2 3 = Returned out /\
    candidate_of <$> out =
      take (Z.to_nat 3)
        (sorted_reverse cand_score
           [mkCandidate "A" 0.9%Q original; mkCandidate "B" 0.5%Q original]
           ++ sorted_reverse cand_score [mkCandidate "C" 0.8%Q translated]
           ++ sorted_reverse cand_score []) /\
    length out = (Z.to_nat 3 `min` (2 + 1 + 0))%nat.
Proof.
  apply (fusion_without_remainder
           (Ranker.mkState
              [mkCandidate "A" 0.9%Q original; mkCandidate "B" 0.5%Q original]
              [mkCandidate "C" 0.8%Q translated] []) 2 3); simpl; lia.
Defined.

(** ** Reranking: what never changes, and the edges *)

Lemma same_identity_refl h : same_identity h h.
Proof. by intros l. Qed.

Lemma same_identity_trans h1 h2 h3 :
  same_identity h1 h2 -> same_identity h2 h3 -> same_identity h1 h3.
Proof. intros H12 H23 l. by rewrite H23, H12. Qed.

Lemma identity_ret {A} (a : A) : preserves same_identity (mret a : M heap A).
Proof. apply preserves_ret, same_identity_refl. Qed.

Lemma identity_lift {A} (o : outcome A) : preserves same_identity (lift o).
Proof. apply preserves_lift, same_identity_refl. Qed.

Lemma identity_bind {A B} (m : M heap A) (k : A -> M heap B) :
  preserves same_identity m ->
  (forall a, preserves same_identity (k a)) ->
  preserves same_identity (m ≫= k).
Proof.
  intros Hm Hk. apply preserves_bind; [apply same_identity_trans|done|].
  intros a _. apply Hk.
Qed.

Lemma identity_for_each {A} (xs : list A) (body : A -> M heap unit) :
  (forall x, preserves same_identity (body x)) ->
  preserves same_identity (for_each xs body).
Proof.
  intros Hbody. apply preserves_for_each;
    [apply same_identity_refl|apply same_identity_trans|].
  intros x _. apply Hbody.
Qed.

Lemma identity_unchanged {A} (m : M heap A) :
  (forall h, (m h).2 = h) -> preserves same_identity m.
Proof. intros Hm h. rewrite Hm. apply same_identity_refl. Qed.

Lemma identity_set_score l q : preserves same_identity (set_score l q).
Proof.
  intros h l'. unfold set_score.
  destruct (h !! l) as [d|] eqn:Hd; simpl; [|done].
  destruct (decide (l' = l)) as [->|Hne].
  - by rewrite lookup_insert_eq, Hd.
  - by rewrite lookup_insert_ne.
Qed.

Lemma identity_set_rank l r : preserves same_identity (set_rank l r).
Proof.
  intros h l'. unfold set_rank.
  destruct (h !! l) as [d|] eqn:Hd; simpl; [|done].
  destruct (decide (l' = l)) as [->|Hne].
  - by rewrite lookup_insert_eq, Hd.
  - by rewrite lookup_insert_ne.
Qed.

Lemma next_rank_state rl docno h : (Ranker.next_rank rl docno h).2 = h.
Proof.
  induction rl as [|l rl IH]; simpl; [done|].
  rewrite run_bind. unfold read.
  destruct (h !! l) as [d|]; simpl; [|done].
  by destruct (decide (doc_docno d = docno)).
Qed.

(** X4. Whatever the list, the feedback and the matrix, and whether the
    call returns or raises, [rerank] changes no docno and no source tag,
    and it neither adds a dictionary to the store nor removes one: only
    scores and ranks are written. *)
Theorem rerank_keeps_identities (rl : list loc) (fb : Feedback)
    (sim : list (list Q)) (h : heap) (l : loc) :
  doc_docno <$> (Ranker.rerank rl fb sim h).2 !! l = doc_docno <$> h !! l /\
  doc_from_query <$> (Ranker.rerank rl fb sim h).2 !! l = doc_from_query <$> h !! l /\
  (is_Some ((Ranker.rerank rl fb sim h).2 !! l) <-> is_Some (h !! l)).
Proof.
  assert (Hp : preserves same_identity (Ranker.rerank rl fb sim)).
  { unfold Ranker.rerank. intros h0. unfold try_error.
    match goal with
    | |- same_identity _ (match ?m h0 with _ => _ end).2 =>
        assert (Hm : preserves same_identity m); [|specialize (Hm h0);
          by destruct (m h0) as [[?|?] ?]]
    end.
    apply identity_bind; [apply identity_unchanged, next_rank_state|].
    intros [rank|]; [|apply identity_ret].
    unfold Ranker.rerank_selected.
    apply identity_bind.
    { apply identity_for_each. intros i. unfold Ranker.update_doc.
      apply identity_bind; [apply identity_lift|]. intros cur.
      apply identity_bind; [apply identity_unchanged; intros h'; apply read_state|]. intros d.
      apply identity_bind; [apply identity_lift|].
      intros [q|]; [apply identity_set_score|apply identity_ret]. }
    intros _. apply identity_bind.
    { apply identity_unchanged. intros h1. apply sorted_by_score_inv. }
    intros part. apply identity_bind; [|intros; apply identity_ret].
    apply identity_for_each. intros [r l']. apply identity_set_rank. }
  specialize (Hp h l).
  destruct ((Ranker.rerank rl fb sim h).2 !! l) as [d'|], (h !! l) as [d|];
    simplify_eq/=; repeat split; try done; try congruence;
    intros [? ?]; done.
Qed.

Lemma next_rank_absent h docno rl :
  (forall l, l ∈ rl -> exists d, h !! l = Some d /\ doc_docno d <> docno) ->
  Ranker.next_rank rl docno h = (Returned None, h).
Proof.
  induction rl as [|l rl IH]; intros Hrl; simpl; [done|].
  destruct (Hrl l) as (d & Hd & Hne); [by left|].
  rewrite run_bind, (read_run _ _ _ Hd), decide_False by done.
  apply IH. intros l' Hl'. apply Hrl. by right.
Qed.

Lemma rerank_absent h rl fb sim :
  (forall l, l ∈ rl -> exists d, h !! l = Some d /\ doc_docno d <> fb_docno fb) ->
  Ranker.rerank rl fb sim h = (Returned rl, h).
Proof.
  intros Hrl. unfold Ranker.rerank, try_error.
  by rewrite run_bind, (next_rank_absent _ _ _ Hrl).
Qed.

(** X5. Feedback on a docno that no entry of the list carries is ignored:
    [rerank] returns the list it was given and leaves the store as it
    was, without looking at the matrix. *)
Theorem rerank_absent_docno_noop (h : heap) (rl : list loc) (fb : Feedback)
    (sim : list (list Q)) :
  (forall l, l ∈ rl -> exists d, h !! l = Some d /\ doc_docno d <> fb_docno fb) ->
  Ranker.rerank rl fb sim h = (Returned rl, h).
Proof. apply rerank_absent. Qed.

Lemma scenario_absent (l : loc) :
  l ∈ Scenario.ranked ->
  exists d, Scenario.store !! l = Some d /\ doc_docno d <> "Z".
Proof.
  intros Hl. apply list_elem_of_lookup in Hl as [i Hl].
  destruct i as [|[|[|i]]]; simplify_eq/=; eexists; (split; [reflexivity|done]).
Qed.

Lemma rerank_absent_docno_noop_witness :
  Ranker.rerank Scenario.ranked (mkFeedback "Z" "+") [] Scenario.store
  = (Returned Scenario.ranked, Scenario.store).
Proof.
  apply (rerank_absent_docno_noop Scenario.store Scenario.ranked
           (mkFeedback "Z" "+") []).
  exact scenario_absent.
Defined.

(** Either some entry carries the docno, and then there is a first one,
    or none does. *)
Lemma found_or_absent h rl docno :
  (forall l, l ∈ rl -> is_Some (h !! l)) ->
  (exists selected, found_at h rl docno selected) \/
  (forall l, l ∈ rl -> exists d, h !! l = Some d /\ doc_docno d <> docno).
Proof.
  induction rl as [|l rl IH]; intros Hlive.
  { right. intros l Hl. by apply elem_of_nil in Hl. }
  destruct (Hlive l) as [d Hd]; [by left|].
  destruct (decide (doc_docno d = docno)) as [Heq|Hne].
  { left. exists 0%nat, l, d. repeat split; try done. intros j ? ? Hj. lia. }
  destruct IH as [[selected (l' & d' & Hl' & Hd' & Heq & Hfirst)]|Habs].
  { intros l' Hl'. apply Hlive. by right. }
  - left. exists (S selected), l', d'. repeat split; try done.
    intros [|j] l'' d'' Hj Hl'' Hd''; simplify_eq/=; [done|].
    eapply Hfirst; [|done..]. lia.
  - right. intros l' Hl'. apply elem_of_cons in Hl' as [->|Hl'].
    + by exists d.
    + by apply Habs.
Qed.

(** X6. A rerank that returns hands back the references it was given,
    each exactly once more or less: the returned list is a rearrangement
    of the input list (nothing dropped, nothing duplicated). *)
Theorem rerank_returns_permutation (h : heap) (rl : list loc) (fb : Feedback)
    (sim : list (list Q)) :
  dense_ranks h rl ->
  forall out, (Ranker.rerank rl fb sim h).1 = Returned out -> out ≡ₚ rl.
Proof.
  intros Hd out Hout.
  destruct (found_or_absent h rl (fb_docno fb)) as [[selected Hf]|Habs].
  { intros l Hl. apply list_elem_of_lookup in Hl as [i Hl].
    destruct (Hd _ _ Hl) as (d & Hh & _). by exists d. }
  - pose proof (found_at_lt _ _ _ _ Hf) as Hlt.
    unfold Ranker.rerank, try_error in Hout.
    rewrite run_bind, (next_rank_selected _ _ _ _ Hd Hf) in Hout.
    replace (Z.of_nat selected + 1 - 1) with (Z.of_nat selected) in Hout by lia.
    destruct (Ranker.rerank_selected rl fb sim (Z.of_nat selected) h)
      as [[out'|msg] h'] eqn:Hrun; simplify_eq/=.
    destruct (rerank_selected_inv _ _ _ _ _ _ _ Hlt Hrun) as (part & -> & Hperm).
    by rewrite Hperm, take_drop.
  - rewrite (rerank_absent _ _ _ _ Habs) in Hout. by simplify_eq/=.
Qed.

Lemma rerank_returns_permutation_witness :
  [0; 2; 1]%nat ≡ₚ Scenario.ranked.
Proof.
  apply (rerank_returns_permutation Scenario.store Scenario.ranked
           Scenario.positive Scenario.sim scenario_dense [0; 2; 1]%nat).
  vm_compute. reflexivity.
Defined.

(** ** Reranking: the returned list *)

Lemma for_list_read_scores (part : list loc) h :
  (forall l, l ∈ part -> is_Some (h !! l)) ->
  exists keyed,
    for_list part (fun l => doc ← read l; mret (l, doc_score doc)) h
    = (Returned keyed, h) /\
    keyed.*1 = part /\
    forall l s, (l, s) ∈ keyed -> doc_score <$> h !! l = Some s.
Proof.
  induction part as [|l part IH]; intros Hin; simpl.
  - exists []. repeat split. intros l s Hl. by apply elem_of_nil in Hl.
  - destruct (Hin l) as [d Hd]; [by left|].
    destruct IH as (keyed & Hrun & Hk & Hsc); [intros; apply Hin; by right|].
    exists ((l, doc_score d) :: keyed). split; [|split].
    + rewrite run_bind, run_bind, (read_run _ _ _ Hd). simpl.
      by rewrite run_bind, Hrun.
    + simpl. by f_equal.
    + intros l' s Hl'. apply elem_of_cons in Hl' as [[= -> ->]|Hl'].
      * by rewrite Hd.
      * by apply Hsc.
Qed.

Lemma enumerate_lookup {A} (xs : list A) (start : Z) (r : Z) (x : A) :
  (r, x) ∈ Ranker.enumerate xs start <->
  exists j : nat, xs !! j = Some x /\ r = start + Z.of_nat j.
Proof.
  unfold Ranker.enumerate. rewrite list_elem_of_lookup. split.
  - intros [j Hj]. rewrite list_lookup_imap in Hj.
    destruct (xs !! j) as [y|] eqn:Hy; simplify_eq/=. by exists j.
  - intros (j & Hj & ->). exists j. by rewrite list_lookup_imap, Hj.
Qed.

(** The rank loop on distinct live references: each dictionary gets the
    rank paired with it and keeps the rest; nothing else is written. *)
Lemma set_rank_loop_values (pairs : list (Z * loc)) :
  NoDup pairs.*2 ->
  forall h,
    (forall l, l ∈ pairs.*2 -> is_Some (h !! l)) ->
    exists h',
      for_each pairs (fun '(rank, doc) => set_rank doc rank) h = (Returned (), h') /\
      (forall l, l ∉ pairs.*2 -> h' !! l = h !! l) /\
      (forall r l, (r, l) ∈ pairs ->
         exists d, h !! l = Some d /\
           h' !! l = Some (mkRanked r (doc_docno d) (doc_score d) (doc_from_query d))).
Proof.
  induction pairs as [|[r l] pairs IH]; intros Hnd h Hlive.
  { exists h. repeat split. intros r l Hl. by apply elem_of_nil in Hl. }
  simpl in Hnd. apply NoDup_cons in Hnd as [Hl Hnd].
  destruct (Hlive l) as [d Hd]; [by left|].
  set (h1 := <[l := mkRanked r (doc_docno d) (doc_score d) (doc_from_query d)]> h).
  destruct (IH Hnd h1) as (h2 & Hrun & Hframe & Hval).
  { intros l' Hl'. subst h1. rewrite lookup_insert_ne; [apply Hlive; by right|].
    by intros ->. }
  exists h2. split; [|split].
  - simpl. rewrite run_bind. unfold set_rank at 1. by rewrite Hd.
  - intros l' Hl'. apply not_elem_of_cons in Hl' as [Hne Hl'].
    rewrite Hframe by done. subst h1. by rewrite lookup_insert_ne.
  - intros r' l' Hin. apply elem_of_cons in Hin as [[= -> ->]|Hin].
    + exists d. split; [done|]. rewrite Hframe by done.
      subst h1. by rewrite lookup_insert_eq.
    + destruct (Hval r' l' Hin) as (d' & Hd' & Hh2).
      exists d'. split; [|done]. subst h1.
      rewrite lookup_insert_ne in Hd'; [done|].
      intros ->. apply Hl. apply list_elem_of_fmap. by exists (r', l').
Qed.

(** The three steps of a rerank that returns: the store [h1] after the
    update loop, the suffix paired with its scores in [h1], and the
    store [h2] after the rank loop. *)
Lemma rerank_steps h rl fb sim selected :
  dense_ranks h rl -> found_at h rl (fb_docno fb) selected ->
  matrix_fits sim (length rl) ->
  exists (h1 : heap) (keyed : list (loc * Q)) (h2 : heap),
    Ranker.rerank rl fb sim h
    = (Returned (take (S selected) rl ++ (sorted_reverse snd keyed).*1), h2) /\
    keyed.*1 = drop (S selected) rl /\
    (forall l s, (l, s) ∈ keyed -> doc_score <$> h1 !! l = Some s) /\
    (forall l, ~ suffix_loc rl selected l -> h1 !! l = h !! l) /\
    (forall l, l ∉ (sorted_reverse snd keyed).*1 -> h2 !! l = h1 !! l) /\
    (forall (j : nat) l, (sorted_reverse snd keyed).*1 !! j = Some l ->
       exists d, h1 !! l = Some d /\
         h2 !! l = Some (mkRanked (Z.of_nat selected + 2 + Z.of_nat j)
                           (doc_docno d) (doc_score d) (doc_from_query d))).
Proof.
  intros Hd Hf Hfit.
  pose proof (found_at_lt _ _ _ _ Hf) as Hlt.
  pose proof (dense_ranks_NoDup _ _ Hd) as Hnd.
  set (n := length rl) in *.
  set (idx := seq (S selected) (n - 1 - S selected)).
  assert (Hidx : forall i, i ∈ idx <-> (selected < i)%nat /\ (i + 1 < n)%nat).
  { intros i. subst idx. rewrite elem_of_seq. lia. }
  destruct (update_loop_run rl fb sim (Z.of_nat selected) idx Hnd
              (NoDup_seq _ _) h) as (h1 & Hloop & Hframe & Hval).
  { intros i Hi. apply Hidx in Hi as [Hi1 Hi2].
    destruct (lookup_lt_is_Some_2 rl i) as [l Hl]; [lia|].
    destruct (Hd _ _ Hl) as (d & Hh & _).
    destruct (new_score_total fb sim n selected i (doc_score d) Hfit)
      as [r Hr]; [lia..|].
    by exists l, d, r. }
  assert (Hlive : forall l, l ∈ rl -> is_Some (h1 !! l)).
  { intros l Hl. apply list_elem_of_lookup in Hl as [i Hl].
    destruct (Hd _ _ Hl) as (d & Hh & _).
    destruct (decide (i ∈ idx)) as [Hin|Hnin].
    - pose proof Hin as Hin'. apply Hidx in Hin' as [Hi1 Hi2].
      destruct (new_score_total fb sim n selected i (doc_score d) Hfit)
        as [r Hr]; [lia..|].
      rewrite (Hval i l d r); eauto.
    - rewrite Hframe; [eauto|]. intros j Hj Hjl.
      assert (j = i) by exact (NoDup_lookup rl j i l Hnd Hjl Hl). by subst. }
  destruct (for_list_read_scores (drop (S selected) rl) h1)
    as (keyed & Hread & Hkeyed & Hscores).
  { intros l Hl. apply Hlive. by apply (subseteq_drop (S selected) rl). }
  set (part := (sorted_reverse snd keyed).*1).
  assert (Hperm : part ≡ₚ drop (S selected) rl).
  { subst part. rewrite <- Hkeyed. apply fmap_Permutation, sorted_reverse_perm. }
  destruct (suffix_slices rl selected part Hlt) as (Hto & Hfrom & Hback).
  destruct (set_rank_loop_values (Ranker.enumerate part (Z.of_nat selected + 2)))
    with (h := h1) as (h2 & Hranks & Hkeep & Hset).
  { rewrite enumerate_snd, Hperm. eapply sublist_NoDup; [exact Hnd|apply sublist_drop]. }
  { rewrite enumerate_snd. intros l Hl. apply Hlive.
    rewrite Hperm in Hl. by apply (subseteq_drop (S selected) rl). }
  rewrite enumerate_snd in Hkeep.
  exists h1, keyed, h2. fold part. split; [|split; [done|split; [done|split; [|split; [done|]]]]].
  - unfold Ranker.rerank, try_error.
    rewrite run_bind, (next_rank_selected _ _ _ _ Hd Hf).
    replace (Z.of_nat selected + 1 - 1) with (Z.of_nat selected) by lia.
    unfold Ranker.rerank_selected. rewrite run_bind.
    replace (Z.of_nat selected + 1) with (Z.of_nat (S selected)) by lia.
    rewrite range_nat.
    replace (Z.to_nat (Z.of_nat (length rl) - 1 - Z.of_nat (S selected)))
      with (n - 1 - S selected)%nat by (subst n; lia).
    fold idx. rewrite Hloop.
    replace (Z.of_nat (S selected)) with (Z.of_nat selected + 1) by lia.
    rewrite run_bind. unfold Ranker.sorted_by_score. rewrite run_bind.
    rewrite Hfrom, Hread, run_ret. fold part.
    rewrite Hto, Hback, run_bind, Hranks. by rewrite run_ret.
  - intros l Hl. apply Hframe. intros i Hi Hil. apply Hl.
    exists i. split; [|done]. by apply Hidx in Hi as [? _].
  - intros j l Hj. apply Hset, enumerate_lookup. by exists j.
Qed.

(** X7. A rerank that returns (dense ranks in, fitting matrix) keeps the
    rank invariant: in the returned list, read through the new store,
    the entry at position [i] has rank [i + 1]. *)
Theorem rerank_keeps_dense_ranks (h : heap) (rl : list loc) (fb : Feedback)
    (sim : list (list Q)) (selected : nat) :
  dense_ranks h rl -> found_at h rl (fb_docno fb) selected ->
  matrix_fits sim (length rl) ->
  exists out h',
    Ranker.rerank rl fb sim h = (Returned out, h') /\ dense_ranks h' out.
Proof.
  intros Hd Hf Hfit.
  pose proof (found_at_lt _ _ _ _ Hf) as Hlt.
  pose proof (dense_ranks_NoDup _ _ Hd) as Hnd.
  destruct (rerank_steps h rl fb sim selected Hd Hf Hfit)
    as (h1 & keyed & h2 & Hrun & Hkeyed & _ & Hpre & Hkeep & Hset).
  set (part := (sorted_reverse snd keyed).*1) in *.
  assert (Hperm : part ≡ₚ drop (S selected) rl).
  { subst part. rewrite <- Hkeyed. apply fmap_Permutation, sorted_reverse_perm. }
  eexists _, _. split; [exact Hrun|].
  intros i l Hl.
  destruct (decide (i < S selected)%nat) as [Hi|Hi].
  - rewrite lookup_app_l in Hl by (rewrite length_take; lia).
    rewrite lookup_take_lt in Hl by done.
    destruct (Hd _ _ Hl) as (d & Hh & Hr). exists d. split; [|done].
    rewrite Hkeep, Hpre; [done| |].
    + intros (k & Hk & Hkl).
      assert (k = i) by exact (NoDup_lookup rl k i l Hnd Hkl Hl). lia.
    + rewrite Hperm. intros Hin. apply list_elem_of_lookup in Hin as [k Hk].
      rewrite lookup_drop in Hk.
      assert (S selected + k = i)%nat by exact (NoDup_lookup rl _ i l Hnd Hk Hl). lia.
  - rewrite lookup_app_r in Hl by (rewrite length_take; lia).
    rewrite length_take in Hl.
    replace (S selected `min` length rl)%nat with (S selected) in Hl by lia.
    destruct (Hset _ _ Hl) as (d & _ & Hh2).
    eexists. split; [exact Hh2|]. simpl. lia.
Qed.

Lemma rerank_keeps_dense_ranks_witness :
  exists out h',
    Ranker.rerank Scenario.ranked Scenario.positive Scenario.sim Scenario.store
    = (Returned out, h') /\ dense_ranks h' out.
Proof.
  apply (rerank_keeps_dense_ranks Scenario.store Scenario.ranked Scenario.positive
           Scenario.sim 0%nat).
  - apply scenario_dense.
  - apply scenario_found.
  - apply scenario_fits.
Defined.

Lemma Forall2_fst_snd {A B} (P : A -> B -> Prop) (l : list (A * B)) :
  (forall x y, (x, y) ∈ l -> P x y) -> Forall2 P l.*1 l.*2.
Proof.
  induction l as [|[x y] l IH]; intros Hl; simpl; constructor.
  - apply Hl. by left.
  - apply IH. intros x' y' Hin. apply Hl. by right.
Qed.

(** X8. In the list a rerank returns, the entries after the selected one
    are in descending order of the scores the new store holds for them. *)
Theorem rerank_suffix_descending (h : heap) (rl : list loc) (fb : Feedback)
    (sim : list (list Q)) (selected : nat) :
  dense_ranks h rl -> found_at h rl (fb_docno fb) selected ->
  matrix_fits sim (length rl) ->
  exists out h' scores,
    Ranker.rerank rl fb sim h = (Returned out, h') /\
    Forall2 (fun l s => doc_score <$> h' !! l = Some s)
      (drop (S selected) out) scores /\
    descending id scores.
Proof.
  intros Hd Hf Hfit.
  pose proof (found_at_lt _ _ _ _ Hf) as Hlt.
  destruct (rerank_steps h rl fb sim selected Hd Hf Hfit)
    as (h1 & keyed & h2 & Hrun & Hkeyed & Hscores & _ & _ & Hset).
  exists (take (S selected) rl ++ (sorted_reverse snd keyed).*1), h2,
    (sorted_reverse snd keyed).*2.
  split; [exact Hrun|]. split.
  - rewrite drop_app_length' by (rewrite length_take; lia).
    apply Forall2_fst_snd. intros l s Hin.
    pose proof Hin as Hin'. rewrite sorted_reverse_perm in Hin'.
    specialize (Hscores l s Hin').
    apply list_elem_of_lookup in Hin as [j Hj].
    assert (Hl : (sorted_reverse snd keyed).*1 !! j = Some l)
      by (by rewrite list_lookup_fmap, Hj).
    destruct (Hset j l Hl) as (d & Hh1 & ->). simpl.
    rewrite Hh1 in Hscores. by simplify_eq/=.
  - unfold descending.
    eapply (StronglySorted_fmap snd); [|apply (sorted_reverse_descending snd keyed)].
    by intros x y Hxy.
Qed.

Lemma rerank_suffix_descending_witness :
  exists out h' scores,
    Ranker.rerank Scenario.ranked Scenario.positive Scenario.sim Scenario.store
    = (Returned out, h') /\
    Forall2 (fun l s => doc_score <$> h' !! l = Some s) (drop 1 out) scores /\
    descending id scores.
Proof.
  apply (rerank_suffix_descending Scenario.store Scenario.ranked Scenario.positive
           Scenario.sim 0%nat).
  - apply scenario_dense.
  - apply scenario_found.
  - apply scenario_fits.
Defined.

(** ** Reranking: special inputs *)

Lemma new_score_other fb sim (sel i : Z) (q : Q) r :
  fb_feedback fb <> "+" -> fb_feedback fb <> "-" ->
  Ranker.new_score fb sim sel i q = Returned r -> r = None.
Proof.
  intros Hp Hm. unfold Ranker.new_score.
  destruct (Ranker.tensor_item sim sel i); [|done].
  rewrite !decide_False by done. congruence.
Qed.

(** X9. With a feedback value that is neither ['+'] nor ['-'] the update
    loop skips every entry: the rerank returns and no score in the store
    has changed. *)
Theorem rerank_unknown_polarity_keeps_scores (h : heap) (rl : list loc)
    (fb : Feedback) (sim : list (list Q)) (selected : nat) :
  dense_ranks h rl -> found_at h rl (fb_docno fb) selected ->
  matrix_fits sim (length rl) ->
  fb_feedback fb <> "+" -> fb_feedback fb <> "-" ->
  exists out h',
    Ranker.rerank rl fb sim h = (Returned out, h') /\
    forall l, doc_score <$> h' !! l = doc_score <$> h !! l.
Proof.
  intros Hd Hf Hfit Hp Hm.
  destruct (rerank_run h rl fb sim selected Hd Hf Hfit)
    as (out & h' & Hrun & Hmid & Hkeep).
  exists out, h'. split; [done|]. intros l.
  destruct (decide (l ∈ rl)) as [Hin|Hnin].
  - apply list_elem_of_lookup in Hin as [i Hl].
    destruct (Hd _ _ Hl) as (d & Hh & _). rewrite Hh. simpl.
    destruct (decide (selected < i /\ i + 1 < length rl)%nat) as [[Hi1 Hi2]|Hi].
    + destruct (Hmid i l d Hl Hh Hi1 Hi2) as (r & Hr & Hsc).
      apply (new_score_other _ _ _ _ _ _ Hp Hm) in Hr as ->. done.
    + apply (Hkeep i l d Hl Hh).
      pose proof (lookup_lt_Some _ _ _ Hl). lia.
  - destruct (rerank_frame h rl fb sim selected Hd Hf) as [Hout _].
    rewrite Hrun in Hout. simpl in Hout. rewrite Hout; [done|].
    intros (k & _ & Hk). apply Hnin. by eapply list_elem_of_lookup_2.
Qed.

Lemma rerank_unknown_polarity_keeps_scores_witness :
  exists out h',
    Ranker.rerank Scenario.ranked (mkFeedback "A" "?") Scenario.sim Scenario.store
    = (Returned out, h') /\
    forall l, doc_score <$> h' !! l = doc_score <$> Scenario.store !! l.
Proof.
  apply (rerank_unknown_polarity_keeps_scores Scenario.store Scenario.ranked
           (mkFeedback "A" "?") Scenario.sim 0%nat).
  - apply scenario_dense.
  - apply scenario_found.
  - apply scenario_fits.
  - discriminate.
  - discriminate.
Defined.

Lemma range_empty (a b : Z) : b <= a -> range a b = [].
Proof. intros Hab. unfold range. by replace (Z.to_nat (b - a)) with 0%nat by lia. Qed.

Lemma rerank_ranked_record (d : RankedDoc) (r : Z) :
  doc_rank d = r ->
  mkRanked r (doc_docno d) (doc_score d) (doc_from_query d) = d.
Proof. intros <-. by destruct d. Qed.

(** X10. Feedback on the last or on the second-to-last entry of a list
    with dense ranks changes nothing, whatever its polarity and whatever
    the matrix (it is never read): the update loop has no position to
    visit, and the one entry that may follow keeps its score, its place
    and its rank. *)
Theorem rerank_near_end_noop (h : heap) (rl : list loc) (fb : Feedback)
    (sim : list (list Q)) (selected : nat) :
  dense_ranks h rl -> found_at h rl (fb_docno fb) selected ->
  (length rl <= selected + 2)%nat ->
  Ranker.rerank rl fb sim h = (Returned rl, h).
Proof.
  intros Hd Hf Hlen.
  pose proof (found_at_lt _ _ _ _ Hf) as Hlt.
  unfold Ranker.rerank, try_error.
  rewrite run_bind, (next_rank_selected _ _ _ _ Hd Hf).
  replace (Z.of_nat selected + 1 - 1) with (Z.of_nat selected) by lia.
  unfold Ranker.rerank_selected.
  rewrite range_empty by lia. simpl. rewrite run_bind, run_ret.
  destruct (suffix_slices rl selected [] Hlt) as (Hto & Hfrom & _).
  rewrite run_bind, Hfrom. unfold Ranker.sorted_by_score. rewrite run_bind.
  destruct (drop (S selected) rl) as [|l [|l' rest]] eqn:Hdrop.
  - simpl. rewrite Hto. destruct (suffix_slices rl selected [] Hlt) as (_ & _ & ->).
    simpl. rewrite app_nil_r, take_ge; [done|].
    apply (f_equal length) in Hdrop. rewrite length_drop in Hdrop. simpl in Hdrop. lia.
  - assert (Hl : rl !! S selected = Some l).
    { rewrite <- (Nat.add_0_r (S selected)), <- lookup_drop. by rewrite Hdrop. }
    destruct (Hd _ _ Hl) as (d & Hh & Hr).
    simpl. rewrite run_bind, run_bind, (read_run _ _ _ Hh). simpl.
    destruct (suffix_slices rl selected [l] Hlt) as (_ & _ & Hback).
    rewrite Hto, Hback. simpl. rewrite run_bind, run_bind.
    unfold set_rank. rewrite Hh. rewrite !run_ret.
    rewrite rerank_ranked_record by lia. rewrite insert_id by done.
    by rewrite <- Hdrop, take_drop.
  - apply (f_equal length) in Hdrop. rewrite length_drop in Hdrop.
    simpl in Hdrop. lia.
Qed.

Lemma rerank_near_end_noop_witness :
  Ranker.rerank Scenario.ranked (mkFeedback "B" "+") [] Scenario.store
  = (Returned Scenario.ranked, Scenario.store).
Proof.
  apply (rerank_near_end_noop Scenario.store Scenario.ranked
           (mkFeedback "B" "+") [] 1%nat).
  - apply scenario_dense.
  - exists 1%nat, Scenario.B. repeat split.
    intros j l' d' Hj Hl' Hd'.
    destruct j as [|j]; [|lia]. injection Hl' as <-.
    vm_compute in Hd'. injection Hd' as <-. discriminate.
  - simpl. lia.
Defined.

Lemma py_index_beyond {A} (xs : list A) (i : nat) :
  (length xs <= i)%nat -> py_index xs (Z.of_nat i) = Raised "IndexError".
Proof.
  intros Hi. unfold py_index.
  rewrite (proj2 (Z.leb_le 0 (Z.of_nat i))) by lia.
  rewrite (proj2 (Z.leb_le 0 (Z.of_nat i))) by lia.
  by rewrite (proj2 (Z.ltb_ge (Z.of_nat i) (Z.of_nat (length xs)))) by lia.
Qed.

(** X11. On a list with dense ranks, when at least two entries follow
    the selected one and the matrix has no row for the selected position,
    [rerank] raises
    [RuntimeError] at the first entry it visits and the store is as it
    was: nothing has been written. *)
Theorem rerank_raises_without_row (h : heap) (rl : list loc) (fb : Feedback)
    (sim : list (list Q)) (selected : nat) :
  dense_ranks h rl -> found_at h rl (fb_docno fb) selected ->
  (selected + 2 < length rl)%nat ->
  (length sim <= selected)%nat ->
  Ranker.rerank rl fb sim h = (Raised "RuntimeError", h).
Proof.
  intros Hd Hf Hlen Hsim.
  unfold Ranker.rerank, try_error.
  rewrite run_bind, (next_rank_selected _ _ _ _ Hd Hf).
  replace (Z.of_nat selected + 1 - 1) with (Z.of_nat selected) by lia.
  unfold Ranker.rerank_selected. rewrite run_bind.
  replace (Z.of_nat selected + 1) with (Z.of_nat (S selected)) by lia.
  rewrite range_nat.
  replace (Z.to_nat (Z.of_nat (length rl) - 1 - Z.of_nat (S selected)))
    with (S (length rl - 2 - S selected)) by lia.
  simpl seq. simpl fmap. simpl for_each. rewrite run_bind.
  destruct (lookup_lt_is_Some_2 rl (S selected)) as [l Hl]; [lia|].
  destruct (Hd _ _ Hl) as (d & Hh & _).
  unfold Ranker.update_doc at 1.
  rewrite run_bind. unfold lift at 1. rewrite (py_index_nat _ _ _ Hl).
  rewrite run_bind, (read_run _ _ _ Hh).
  rewrite run_bind. unfold lift at 1. unfold Ranker.new_score, Ranker.tensor_item.
  by rewrite (py_index_beyond sim selected Hsim).
Qed.

Lemma rerank_raises_without_row_witness :
  Ranker.rerank Scenario.ranked Scenario.positive [] Scenario.store
  = (Raised "RuntimeError", Scenario.store).
Proof.
  apply (rerank_raises_without_row Scenario.store Scenario.ranked
           Scenario.positive [] 0%nat).
  - apply scenario_dense.
  - apply scenario_found.
  - simpl. lia.
  - simpl. lia.
Defined.

(** X20. With positive feedback, dense ranks and a fitting matrix the
    call returns, and every entry strictly between the selected position
    and the last position gets its score multiplied by the similarity
    the matrix holds at row [selected], column [i]. *)
Theorem rerank_positive_scales (h : heap) (rl : list loc) (fb : Feedback)
    (sim : list (list Q)) (selected : nat) :
  dense_ranks h rl -> found_at h rl (fb_docno fb) selected ->
  matrix_fits sim (length rl) -> fb_feedback fb = "+" ->
  exists out h' row,
    Ranker.rerank rl fb sim h = (Returned out, h') /\
    sim !! selected = Some row /\
    forall (i : nat) l d s,
      rl !! i = Some l -> h !! l = Some d -> row !! i = Some s ->
      (selected < i)%nat -> (i + 1 < length rl)%nat ->
      doc_score <$> h' !! l = Some (doc_score d * s)%Q.
Proof.
  intros Hd Hf Hfit Hpos.
  destruct (rerank_run h rl fb sim selected Hd Hf Hfit)
    as (out & h' & Hrun & Hmid & _).
  pose proof (found_at_lt _ _ _ _ Hf) as Hlt.
  destruct (matrix_fits_lookup sim _ selected selected Hfit Hlt Hlt)
    as (row & _ & Hrow & _ & _).
  exists out, h', row. split; [done|]. split; [done|].
  intros i l d s Hl Hh Hs Hi1 Hi2.
  destruct (Hmid i l d Hl Hh Hi1 Hi2) as (r & Hr & Hsc).
  rewrite (new_score_positive fb sim selected i row s _ Hpos Hrow Hs) in Hr.
  by simplify_eq.
Qed.

Lemma rerank_positive_scales_witness :
  exists out h' row,
    Ranker.rerank Scenario.ranked Scenario.positive Scenario.sim Scenario.store
    = (Returned out, h') /\
    Scenario.sim !! 0%nat = Some row /\
    forall (i : nat) l d s,
      Scenario.ranked !! i = Some l -> Scenario.store !! l = Some d ->
      row !! i = Some s ->
      (0 < i)%nat -> (i + 1 < length Scenario.ranked)%nat ->
      doc_score <$> h' !! l = Some (doc_score d * s)%Q.
Proof.
  apply (rerank_positive_scales Scenario.store Scenario.ranked Scenario.positive
           Scenario.sim 0%nat).
  - apply scenario_dense.
  - apply scenario_found.
  - apply scenario_fits.
  - reflexivity.
Defined.

(** ** The embedding call and the pipeline *)

(** X12. The matrix [ClinicalBERT.__call__] returns depends on the ids
    only through membership: two id lists with the same members, in any
    order and with any repetitions, select the same documents, in corpus
    order, and give the same outcome. *)
Theorem bert_call_ignores_id_order (env : Collaborators) (documents : list Document)
    (ids ids' : list string) :
  (forall x, x ∈ ids <-> x ∈ ids') ->
  ClinicalBERT.selected documents ids = ClinicalBERT.selected documents ids' /\
  ClinicalBERT.selected documents ids `sublist_of` documents /\
  ClinicalBERT.call env documents ids = ClinicalBERT.call env documents ids'.
Proof.
  intros Hids.
  assert (Hsel : ClinicalBERT.selected documents ids
                 = ClinicalBERT.selected documents ids').
  { unfold ClinicalBERT.selected. apply list_filter_iff. intros d. apply Hids. }
  split; [done|]. split; [apply sublist_filter|].
  unfold ClinicalBERT.call. by rewrite Hsel.
Qed.

Lemma bert_call_ignores_id_order_witness :
  ClinicalBERT.selected PairingExample.corpus ["D3"; "D1"]
  = ClinicalBERT.selected PairingExample.corpus ["D1"; "D3"; "D1"] /\
  ClinicalBERT.selected PairingExample.corpus ["D3"; "D1"]
    `sublist_of` PairingExample.corpus /\
  ClinicalBERT.call PairingExample.env PairingExample.corpus ["D3"; "D1"]
  = ClinicalBERT.call PairingExample.env PairingExample.corpus ["D1"; "D3"; "D1"].
Proof.
  apply (bert_call_ignores_id_order PairingExample.env PairingExample.corpus
           ["D3"; "D1"] ["D1"; "D3"; "D1"]).
  intros x. rewrite !elem_of_cons, !elem_of_nil. tauto.
Defined.

(** X13. When no corpus document carries one of the ids (an empty id
    list included), [ClinicalBERT.__call__] raises [RuntimeError] without
    asking the model for a matrix. *)
Theorem bert_call_no_match_raises (env : Collaborators) (documents : list Document)
    (ids : list string) :
  (forall d, d ∈ documents -> d_docno d ∉ ids) ->
  ClinicalBERT.call env documents ids = Raised "RuntimeError".
Proof.
  intros Hno. unfold ClinicalBERT.call.
  replace (ClinicalBERT.selected documents ids) with (@nil Document); [done|].
  symmetry. unfold ClinicalBERT.selected.
  induction documents as [|d documents IH]; [done|].
  rewrite filter_cons_False by (apply Hno; by left).
  apply IH. intros d' Hd'. apply Hno. by right.
Qed.

Lemma bert_call_no_match_raises_witness :
  ClinicalBERT.call PairingExample.env PairingExample.corpus ["D9"]
  = Raised "RuntimeError".
Proof.
  apply (bert_call_no_match_raises PairingExample.env PairingExample.corpus ["D9"]).
  intros d Hd. unfold PairingExample.corpus in Hd.
  rewrite !elem_of_cons, elem_of_nil in Hd.
  rewrite elem_of_cons, elem_of_nil.
  destruct Hd as [->|[->|[->|[]]]]; simpl; intros [Heq|[]]; discriminate.
Defined.

Lemma rank_returns_dense (original_docs translated_docs expanded_docs : list (string * Q))
    (topn nmax : Z) :
  exists out,
    Ranker.rank original_docs translated_docs expanded_docs topn nmax = Returned out /\
    doc_rank <$> out = (fun i => Z.of_nat i + 1) <$> seq 0 (length out).
Proof.
  eexists. split; [reflexivity|].
  rewrite length_imap. apply ranked_ranks_dense.
Qed.

(** Allocating a list of dictionaries: the references are new and
    distinct, hold the dictionaries in order, and the old ones are kept. *)
Lemma alloc_list_run (docs : list RankedDoc) :
  forall h,
    exists locs h',
      for_list docs alloc h = (Returned locs, h') /\
      NoDup locs /\
      (forall l, l ∈ locs -> h !! l = None) /\
      (forall l, l ∉ locs -> h' !! l = h !! l) /\
      (fun l => h' !! l) <$> locs = Some <$> docs.
Proof.
  induction docs as [|d docs IH]; intros h.
  { exists [], h. repeat split; try done; try constructor.
    intros l Hl. by apply elem_of_nil in Hl. }
  set (l := fresh (dom h)).
  assert (Hl : h !! l = None) by apply not_elem_of_dom, is_fresh.
  destruct (IH (<[l := d]> h)) as (locs & h' & Hrun & Hnd & Hnew & Hold & Hval).
  assert (Hnin : l ∉ locs).
  { intros Hin. specialize (Hnew l Hin). by rewrite lookup_insert_eq in Hnew. }
  exists (l :: locs), h'. split; [|split; [|split; [|split]]].
  - simpl. rewrite run_bind. unfold alloc at 1. fold l.
    by rewrite run_bind, Hrun.
  - by constructor.
  - intros l' Hl'. apply elem_of_cons in Hl' as [->|Hl']; [done|].
    specialize (Hnew l' Hl').
    destruct (decide (l' = l)) as [->|Hne]; [done|].
    by rewrite lookup_insert_ne in Hnew.
  - intros l' Hl'. apply not_elem_of_cons in Hl' as [Hne Hl'].
    rewrite Hold by done. by rewrite lookup_insert_ne.
  - simpl. f_equal; [|done]. rewrite Hold by done. apply lookup_insert_eq.
Qed.

(** X14. Once [retrieve_original] has set [topn], [Pipeline.rank]
    returns: the list it returns consists of new, distinct references
    that hold the entries [Ranker.rank] computed from the three top
    lists, so it has dense ranks in the new store; every dictionary that
    existed before is untouched, and the list is recorded as the
    pipeline's ranked list. On a pipeline whose [topn] is still the value
    the constructor leaves, [rank] raises [TypeError] and changes
    nothing. *)
Theorem pipeline_rank_fresh_dense :
  (forall (p : Pipeline.state) (n0 : Z),
     Pipeline.topn p = Some n0 ->
     exists ranked p' docs,
       Pipeline.rank p = (Returned ranked, p') /\
       (let n := match Pipeline.expanded_top p with
                 | [] => n0 * 2
                 | _ => n0 * 3
                 end in
        Ranker.rank (Pipeline.original_top p) (Pipeline.translated_top p)
          (Pipeline.expanded_top p) n (n * 3) = Returned docs) /\
       (fun l => Pipeline.store p' !! l) <$> ranked = Some <$> docs /\
       dense_ranks (Pipeline.store p') ranked /\
       NoDup ranked /\
       (forall l, is_Some (Pipeline.store p !! l) ->
          (l ∉ ranked) /\ Pipeline.store p' !! l = Pipeline.store p !! l) /\
       Pipeline.ranked_list p' = ranked) /\
  (forall p : Pipeline.state,
     Pipeline.topn p = None -> Pipeline.rank p = (Raised "TypeError", p)).
Proof.
  split.
  - intros p n0 Htopn.
    set (n := match Pipeline.expanded_top p with
              | [] => n0 * 2
              | _ => n0 * 3
              end).
    destruct (rank_returns_dense (Pipeline.original_top p) (Pipeline.translated_top p)
                (Pipeline.expanded_top p) n (n * 3)) as (docs & Hdocs & Hranks).
    destruct (alloc_list_run docs (Pipeline.store p))
      as (locs & h' & Hrun & Hnd & Hnew & Hold & Hval).
    exists locs, (Pipeline.set_ranked_list locs (Pipeline.set_store h' p)), docs.
    split; [|split; [done|split; [done|split; [|split; [done|split; [|done]]]]]].
    + unfold Pipeline.rank. rewrite run_bind. unfold get at 1.
      rewrite run_bind. unfold Pipeline.topn_int at 1.
      rewrite run_bind. unfold get at 1. rewrite Htopn, run_ret. fold n.
      rewrite run_bind. unfold lift at 1. rewrite Hdocs.
      rewrite run_bind. unfold Pipeline.on_store, zoom. rewrite Hrun.
      by rewrite run_bind.
    + intros i l Hl. simpl.
      assert (Hi : ((fun l => h' !! l) <$> locs) !! i = Some (h' !! l))
        by (by rewrite list_lookup_fmap, Hl).
      rewrite Hval, list_lookup_fmap in Hi.
      destruct (docs !! i) as [d|] eqn:Hd; simplify_eq/=.
      exists d. split; [done|].
      assert (Hr : (doc_rank <$> docs) !! i = Some (doc_rank d))
        by (by rewrite list_lookup_fmap, Hd).
      rewrite Hranks, list_lookup_fmap in Hr.
      destruct (seq 0 (length docs) !! i) as [k|] eqn:Hk; simplify_eq/=.
      apply lookup_seq in Hk as [-> _]. by rewrite <- Hr.
    + intros l [d Hd]. simpl.
      assert (l ∉ locs).
      { intros Hin. specialize (Hnew l Hin). congruence. }
      split; [done|]. by apply Hold.
  - intros p Htopn. unfold Pipeline.rank. rewrite run_bind. unfold get at 1.
    rewrite run_bind. unfold Pipeline.topn_int at 1.
    rewrite run_bind. unfold get at 1. by rewrite Htopn.
Qed.

Lemma pipeline_rank_fresh_dense_witness :
  exists ranked p' docs,
    Pipeline.rank PairingExample.pipeline0 = (Returned ranked, p') /\
    (let n := match Pipeline.expanded_top PairingExample.pipeline0 with
              | [] => 15 * 2
              | _ => 15 * 3
              end in
     Ranker.rank (Pipeline.original_top PairingExample.pipeline0)
       (Pipeline.translated_top PairingExample.pipeline0)
       (Pipeline.expanded_top PairingExample.pipeline0) n (n * 3) = Returned docs) /\
    (fun l => Pipeline.store p' !! l) <$> ranked = Some <$> docs /\
    dense_ranks (Pipeline.store p') ranked /\
    NoDup ranked /\
    (forall l, is_Some (Pipeline.store PairingExample.pipeline0 !! l) ->
       (l ∉ ranked) /\
       Pipeline.store p' !! l = Pipeline.store PairingExample.pipeline0 !! l) /\
    Pipeline.ranked_list p' = ranked.
Proof.
  apply (proj1 pipeline_rank_fresh_dense PairingExample.pipeline0 15).
  reflexivity.
Defined.

(** ** The session: feedback, toggles, search *)

(** The part of the history [_feedback] keeps before it reranks. *)
Lemma feedback_base (docno : string) (hist : list SearchState) :
  exists base rest,
    hist = base ++ rest /\
    Forall (fun s => GUI.targets docno s = false) base /\
    match fst <$> list_find (GUI.targets docno) hist with
    | Some i => slice_to hist (Z.of_nat i)
    | None => hist
    end = base.
Proof.
  destruct (list_find (GUI.targets docno) hist) as [[i st]|] eqn:Hfind; simpl.
  - apply list_find_Some in Hfind as (Hi & _ & Hbefore).
    exists (take i hist), (drop i hist). split; [by rewrite take_drop|].
    split; [|rewrite slice_to_nonneg by lia; by rewrite Nat2Z.id].
    apply Forall_forall. intros s Hs.
    apply list_elem_of_lookup in Hs as [j Hj].
    pose proof (lookup_lt_Some _ _ _ Hj) as Hlt. rewrite length_take in Hlt.
    rewrite lookup_take_lt in Hj by lia.
    specialize (Hbefore j s Hj ltac:(lia)).
    by destruct (GUI.targets docno s).
  - apply list_find_None in Hfind.
    exists hist, []. split; [by rewrite app_nil_r|]. split; [|done].
    eapply Forall_impl; [exact Hfind|]. intros s Hs. simpl in Hs.
    by destruct (GUI.targets docno s).
Qed.

(** [_feedback] is the truncation followed, for a value of 1 or 2, by
    [_rerank]. *)
Lemma feedback_run (env : Collaborators) (docno : string) (v : option Z)
    (g : GUI.state) (base : list SearchState) :
  match fst <$> list_find (GUI.targets docno) (GUI.search_history g) with
  | Some i => slice_to (GUI.search_history g) (Z.of_nat i)
  | None => GUI.search_history g
  end = base ->
  GUI._feedback env docno v g =
  (if decide (v = Some 1 \/ v = Some 2) then
     GUI._rerank env (mkFeedback docno (if decide (v = Some 1) then "-" else "+"))
   else mret ())
    (GUI.set_search_history base g).
Proof.
  intros Hbase. unfold GUI._feedback. rewrite run_bind. unfold get at 1.
  destruct (fst <$> list_find (GUI.targets docno) (GUI.search_history g))
    as [i|]; rewrite run_bind.
  - unfold modify at 1. by rewrite Hbase.
  - rewrite run_ret. subst base. by destruct g.
Qed.

(** How [_rerank] ends. *)
Lemma rerank_outcome (env : Collaborators) (fb : Feedback) (g : GUI.state) :
  (GUI._rerank env fb g).1 =
  match last (GUI.search_history g) with
  | Some last_state =>
      match (Pipeline.rerank env (results last_state) fb (GUI.pipeline g)).1 with
      | Returned _ => Returned ()
      | Raised _ => Raised "RuntimeError"
      end
  | None => Raised "IndexError"
  end.
Proof.
  unfold GUI._rerank. rewrite run_bind. unfold get at 1.
  rewrite run_bind. unfold lift. rewrite py_index_last.
  destruct (last (GUI.search_history g)) as [last_state|]; [|done].
  unfold try_error. rewrite run_bind. unfold GUI.on_pipeline. rewrite zoom_run.
  by destruct (Pipeline.rerank env (results last_state) fb (GUI.pipeline g))
    as [[reranked|msg] p'].
Qed.

(** When [_rerank] returns it has appended one state, carrying the
    feedback it was given. *)
Lemma rerank_returned (env : Collaborators) (fb : Feedback) (g : GUI.state) :
  (GUI._rerank env fb g).1 = Returned () ->
  exists last_state reranked,
    GUI.search_history (GUI._rerank env fb g).2 =
    GUI.search_history g ++ [mkSearchState (query last_state) reranked (Some fb)].
Proof.
  rewrite rerank_outcome, rerank_history.
  destruct (last (GUI.search_history g)) as [last_state|]; [|done].
  destruct (Pipeline.rerank env (results last_state) fb (GUI.pipeline g)).1
    as [reranked|msg]; [|done].
  intros _. by exists last_state, reranked.
Qed.

Lemma toggle_fold_skip (docno : string) (hist : list SearchState) (acc : option string) :
  Forall (fun s => GUI.targets docno s = false) hist ->
  foldl (fun shown val =>
           if GUI.targets docno val then fb_feedback <$> feedback val else shown)
    acc hist = acc.
Proof.
  revert acc. induction hist as [|s hist IH]; intros acc Hall; [done|].
  apply Forall_cons in Hall as [Hs Hall]. simpl. rewrite Hs. by apply IH.
Qed.

(** X15. After a feedback of value 1 or 2 on a record has gone through,
    the toggle [display] shows for that record is the value just given,
    whatever feedback the history held before. *)
Theorem feedback_sets_toggle (env : Collaborators) (g : GUI.state)
    (docno : string) (v : Z) :
  v = 1 \/ v = 2 ->
  (GUI._feedback env docno (Some v) g).1 = Returned () ->
  GUI.toggle_value (GUI.search_history (GUI._feedback env docno (Some v) g).2) docno
  = Some v.
Proof.
  intros Hv Hret.
  destruct (feedback_base docno (GUI.search_history g))
    as (base & rest & _ & Hbase & Hcut).
  rewrite (feedback_run env docno (Some v) g base Hcut) in *.
  rewrite decide_True in * by (destruct Hv as [->| ->]; auto).
  destruct (rerank_returned env _ _ Hret) as (last_state & reranked & ->).
  simpl. unfold GUI.toggle_value. rewrite foldl_app. simpl.
  unfold GUI.targets at 1. simpl. rewrite bool_decide_eq_true_2 by done.
  destruct Hv as [-> | ->]; reflexivity.
Qed.

Lemma feedback_sets_toggle_witness :
  GUI.toggle_value
    (GUI.search_history
       (GUI._feedback PairingExample.env "D3" (Some 1) PairingExample.session).2)
    "D3"
  = Some 1.
Proof.
  apply (feedback_sets_toggle PairingExample.env PairingExample.session "D3" 1).
  - by left.
  - vm_compute. reflexivity.
Defined.

(** X16. Clearing the feedback on a record (no value) always returns,
    leaves the pipeline alone, cuts the history to a beginning of itself
    in which no state carries feedback on that record, and so leaves the
    record's toggle without a value. *)
Theorem feedback_clear_resets_toggle (env : Collaborators) (g : GUI.state)
    (docno : string) :
  (GUI._feedback env docno None g).1 = Returned () /\
  GUI.pipeline (GUI._feedback env docno None g).2 = GUI.pipeline g /\
  (exists rest,
     GUI.search_history g
     = GUI.search_history (GUI._feedback env docno None g).2 ++ rest) /\
  Forall (fun s => GUI.targets docno s = false)
    (GUI.search_history (GUI._feedback env docno None g).2) /\
  GUI.toggle_value (GUI.search_history (GUI._feedback env docno None g).2) docno
  = None.
Proof.
  destruct (feedback_base docno (GUI.search_history g))
    as (base & rest & Hsplit & Hbase & Hcut).
  rewrite (feedback_run env docno None g base Hcut).
  rewrite decide_False by (intros [|]; discriminate).
  rewrite run_ret. simpl. split; [done|]. split; [done|].
  split; [by exists rest|]. split; [done|].
  unfold GUI.toggle_value. by rewrite toggle_fold_skip.
Qed.

(** X17. When no state of the history carries feedback on the record,
    [_feedback] discards nothing: the history afterwards is the old one,
    followed for a value of 1 or 2 by the state of the new rerank of its
    last state (and by nothing when that rerank raises or the history is
    empty). *)
Theorem feedback_without_earlier_keeps_history (env : Collaborators) (g : GUI.state)
    (docno : string) (v : option Z) :
  Forall (fun s => GUI.targets docno s = false) (GUI.search_history g) ->
  GUI.search_history (GUI._feedback env docno v g).2 =
  if decide (v = Some 1 \/ v = Some 2) then
    let fb := mkFeedback docno (if decide (v = Some 1) then "-" else "+") in
    match last (GUI.search_history g) with
    | Some last_state =>
        match (Pipeline.rerank env (results last_state) fb (GUI.pipeline g)).1 with
        | Returned reranked =>
            GUI.search_history g
              ++ [mkSearchState (query last_state) reranked (Some fb)]
        | Raised _ => GUI.search_history g
        end
    | None => GUI.search_history g
    end
  else GUI.search_history g.
Proof.
  intros Hnone.
  assert (Hfind : list_find (GUI.targets docno) (GUI.search_history g) = None).
  { apply list_find_None. eapply Forall_impl; [exact Hnone|].
    intros s Hs. simpl in Hs. rewrite Hs. by intros []. }
  rewrite (feedback_run env docno v g (GUI.search_history g))
    by (by rewrite Hfind).
  replace (GUI.set_search_history (GUI.search_history g) g) with g by (by destruct g).
  destruct (decide (v = Some 1 \/ v = Some 2)); [|done].
  by rewrite rerank_history.
Qed.

Lemma feedback_without_earlier_keeps_history_witness :
  GUI.search_history
    (GUI._feedback PairingExample.env "D1" (Some 2) PairingExample.session).2 =
  if decide (Some 2 = Some 1 \/ Some 2 = Some 2 :> option Z) then
    let fb := mkFeedback "D1" (if decide (Some 2 = Some 1 :> option Z) then "-" else "+") in
    match last (GUI.search_history PairingExample.session) with
    | Some last_state =>
        match (Pipeline.rerank PairingExample.env (results last_state) fb
                 (GUI.pipeline PairingExample.session)).1 with
        | Returned reranked =>
            GUI.search_history PairingExample.session
              ++ [mkSearchState (query last_state) reranked (Some fb)]
        | Raised _ => GUI.search_history PairingExample.session
        end
    | None => GUI.search_history PairingExample.session
    end
  else GUI.search_history PairingExample.session.
Proof.
  apply (feedback_without_earlier_keeps_history PairingExample.env
           PairingExample.session "D1" (Some 2)).
  repeat constructor.
Defined.

(** ** Showing results *)

Lemma for_list_plain_read_state (refs : list loc) h :
  (for_list refs read h).2 = h.
Proof.
  induction refs as [|l refs IH]; simpl; [done|].
  rewrite run_bind. unfold read at 1.
  destruct (h !! l) as [d|]; simpl; [|done].
  rewrite run_bind. by destruct (for_list refs read h) as [[ds|msg] h'].
Qed.

Lemma for_list_plain_read_run (refs : list loc) h :
  (forall l, l ∈ refs -> is_Some (h !! l)) ->
  exists ds,
    for_list refs read h = (Returned ds, h) /\
    Some <$> ds = (fun l => h !! l) <$> refs.
Proof.
  induction refs as [|l refs IH]; intros Hlive; simpl.
  - by exists [].
  - destruct (Hlive l) as [d Hd]; [by left|].
    destruct IH as (ds & Hrun & Hds); [intros; apply Hlive; by right|].
    exists (d :: ds). split.
    + by rewrite run_bind, (read_run _ _ _ Hd), run_bind, Hrun.
    + simpl. rewrite Hd. f_equal. exact Hds.
Qed.

(** X18. A search without reset (the refresh [display] asks for after a
    feedback, or any blank query) is read-only: whatever the query, the
    whole session state (history, pipeline attributes and every
    dictionary of the store) is the same after it. *)
Theorem search_without_reset_read_only (env : Collaborators) (q : string)
    (g : GUI.state) :
  (GUI.search env q false g).2 = g.
Proof.
  unfold GUI.search. destruct (decide (strip env q = "")); [done|].
  rewrite run_bind, run_ret, run_bind. unfold get at 1.
  unfold GUI._search. rewrite run_bind.
  unfold GUI.on_pipeline, Pipeline.on_store. rewrite !zoom_run.
  rewrite for_list_plain_read_state.
  replace (Pipeline.set_store (Pipeline.store (GUI.pipeline g)) (GUI.pipeline g))
    with (GUI.pipeline g) by (by destruct (GUI.pipeline g)).
  simpl.
  replace (GUI.set_pipeline (GUI.pipeline g) g) with g by (by destruct g).
  by destruct (for_list _ read _).1.
Qed.

(** The corpus document a docno is shown with: the last one carrying it. *)
Lemma docno_to_document_lookup (env : Collaborators) (k : string) :
  GUI.docno_to_document env !! k
  = last (filter (fun document => d_docno document = k) (documents env)).
Proof.
  unfold GUI.docno_to_document.
  assert (Hgen : forall (docs : list Document) (m : gmap string Document),
            foldl (fun m document => <[d_docno document := document]> m) m docs !! k
            = match last (filter (fun document => d_docno document = k) docs) with
              | Some d => Some d
              | None => m !! k
              end).
  { induction docs as [|d docs IH]; intros m; simpl; [done|].
    rewrite IH. destruct (decide (d_docno d = k)) as [Heq|Hne].
    - rewrite filter_cons_True by done. rewrite last_cons.
      destruct (last (filter _ docs)); [done|]. by rewrite <- Heq, lookup_insert_eq.
    - rewrite filter_cons_False by done.
      destruct (last (filter _ docs)); [done|]. by rewrite lookup_insert_ne. }
  rewrite Hgen. by destruct (last _).
Qed.

Lemma docno_to_document_known (env : Collaborators) (k : string) :
  match GUI.docno_to_document env !! k with
  | Some d => d_docno d = k /\ k ∈ d_docno <$> documents env
  | None => k ∉ d_docno <$> documents env
  end.
Proof.
  rewrite docno_to_document_lookup.
  destruct (last _) as [d|] eqn:Hlast.
  - apply last_Some_elem_of, list_elem_of_filter in Hlast as [Hk Hin].
    split; [done|]. apply list_elem_of_fmap. by exists d.
  - apply last_None in Hlast. intros Hin.
    apply list_elem_of_fmap in Hin as (d & -> & Hin).
    assert (Hd : d ∈ filter (fun document => d_docno document = d_docno d) (documents env))
      by (by apply list_elem_of_filter).
    rewrite Hlast in Hd. by apply elem_of_nil in Hd.
Qed.

(** X19. [_search] shows the ranked results whose docno exists in the
    corpus, in ranked order and no others; a result with an unknown docno
    is silently left out; each one is shown with the last corpus document
    carrying its docno; the session state is not changed. *)
Theorem search_shows_known_results (env : Collaborators) (latest_results : list loc)
    (g : GUI.state) :
  (forall l, l ∈ latest_results ->
     is_Some (Pipeline.store (GUI.pipeline g) !! l)) ->
  exists (rs : list RankedDoc) (shown : list Document),
    Some <$> rs = (fun l => Pipeline.store (GUI.pipeline g) !! l) <$> latest_results /\
    GUI._search env latest_results g = (Returned shown, g) /\
    d_docno <$> shown
    = filter (fun k => k ∈ d_docno <$> documents env) (doc_docno <$> rs) /\
    forall d, d ∈ shown ->
      last (filter (fun document => d_docno document = d_docno d) (documents env))
      = Some d.
Proof.
  intros Hlive.
  destruct (for_list_plain_read_run latest_results _ Hlive) as (rs & Hrun & Hrs).
  exists rs, (omap (fun result => GUI.docno_to_document env !! doc_docno result) rs).
  split; [done|]. split; [|split].
  - unfold GUI._search. rewrite run_bind.
    unfold GUI.on_pipeline, Pipeline.on_store. rewrite !zoom_run, Hrun. simpl.
    rewrite run_ret. f_equal.
    replace (Pipeline.set_store (Pipeline.store (GUI.pipeline g)) (GUI.pipeline g))
      with (GUI.pipeline g) by (by destruct (GUI.pipeline g)).
    by destruct g.
  - clear Hrun Hrs. induction rs as [|r rs IH]; [done|]. simpl.
    pose proof (docno_to_document_known env (doc_docno r)) as Hk.
    destruct (GUI.docno_to_document env !! doc_docno r) as [d|].
    + destruct Hk as [Hd Hin]. rewrite filter_cons_True by done.
      rewrite fmap_cons, Hd. f_equal. exact IH.
    + rewrite filter_cons_False by done. exact IH.
  - intros d Hd. apply list_elem_of_omap in Hd as (r & _ & Hr).
    pose proof (docno_to_document_known env (doc_docno r)) as Hk.
    rewrite Hr in Hk. destruct Hk as [-> _].
    by rewrite <- docno_to_document_lookup.
Qed.

Lemma search_shows_known_results_witness :
  exists (rs : list RankedDoc) (shown : list Document),
    Some <$> rs
    = (fun l => Pipeline.store (GUI.pipeline PairingExample.session) !! l)
        <$> PairingExample.ranked /\
    GUI._search PairingExample.env PairingExample.ranked PairingExample.session
    = (Returned shown, PairingExample.session) /\
    d_docno <$> shown
    = filter (fun k => k ∈ d_docno <$> documents PairingExample.env)
        (doc_docno <$> rs) /\
    forall d, d ∈ shown ->
      last (filter (fun document => d_docno document = d_docno d)
              (documents PairingExample.env))
      = Some d.
Proof.
  apply (search_shows_known_results PairingExample.env PairingExample.ranked
           PairingExample.session).
  intros l Hl. unfold PairingExample.ranked in Hl.
  rewrite !elem_of_cons, elem_of_nil in Hl.
  destruct Hl as [->|[->|[->|[]]]]; eexists; reflexivity.
Defined.
